(** * Verification of the user management system (user_functions.py)

    A shallow embedding of [user_functions.py]: the two validators
    ([is_valid_password], [is_valid_email]) over a small regular-expression
    matcher standing for Python's [re], the hasher ([hash_password], SHA-256
    over the UTF-8 encoding), the part of [sqlite3] the module uses
    (connections, implicit transactions, [commit], [close]) as a state and
    exception monad, and the four account operations written in that monad
    statement by statement.

    Python [str] values are modelled as [string]: every [ascii] is one code
    point in the range 0..255. *)

From Stdlib Require Import ZArith NArith Ascii String List Bool Lia.
From stdpp Require Import gmap strings list fin_maps.

Local Open Scope string_scope.
Local Open Scope list_scope.

(** ** Regular expressions: the fragment of [re] used by the validators *)

Module Re.

(** Abstract syntax. [Class f] is a bracket expression such as [[0-9]]. *)
Inductive regex : Type :=
| Fail_                        (* matches nothing *)
| Empty                        (* matches the empty string *)
| Class (f : ascii -> bool)
| Seq (r1 r2 : regex)
| Alt (r1 r2 : regex)
| Star (r : regex).

(** A literal character, [r+] and [r{n,}]. *)
Definition Lit (c : ascii) : regex := Class (Ascii.eqb c).
Definition Plus (r : regex) : regex := Seq r (Star r).
Fixpoint AtLeast (n : nat) (r : regex) : regex :=
  match n with
  | O => Star r
  | S n' => Seq r (AtLeast n' r)
  end.

(** [lo-hi] inside a bracket expression: comparison of code points. *)
Definition in_range (lo hi c : ascii) : bool :=
  (N_of_ascii lo <=? N_of_ascii c)%N && (N_of_ascii c <=? N_of_ascii hi)%N.

(** Membership of a character in an explicit list of characters. *)
Definition one_of (cs : string) (c : ascii) : bool :=
  existsb (Ascii.eqb c) (list_ascii_of_string cs).

(** The language of a regular expression. *)
Inductive lang : regex -> list ascii -> Prop :=
| L_Empty : lang Empty []
| L_Class f c : f c = true -> lang (Class f) [c]
| L_Seq r1 r2 s1 s2 : lang r1 s1 -> lang r2 s2 -> lang (Seq r1 r2) (s1 ++ s2)
| L_AltL r1 r2 s : lang r1 s -> lang (Alt r1 r2) s
| L_AltR r1 r2 s : lang r2 s -> lang (Alt r1 r2) s
| L_StarNil r : lang (Star r) []
| L_StarCons r s1 s2 : lang r s1 -> lang (Star r) s2 -> lang (Star r) (s1 ++ s2).

(** The matcher, by derivatives. *)
Fixpoint nullable (r : regex) : bool :=
  match r with
  | Fail_ => false
  | Empty => true
  | Class _ => false
  | Seq r1 r2 => nullable r1 && nullable r2
  | Alt r1 r2 => nullable r1 || nullable r2
  | Star _ => true
  end.

Fixpoint deriv (c : ascii) (r : regex) : regex :=
  match r with
  | Fail_ => Fail_
  | Empty => Fail_
  | Class f => if f c then Empty else Fail_
  | Seq r1 r2 =>
      if nullable r1
      then Alt (Seq (deriv c r1) r2) (deriv c r2)
      else Seq (deriv c r1) r2
  | Alt r1 r2 => Alt (deriv c r1) (deriv c r2)
  | Star r1 => Seq (deriv c r1) (Star r1)
  end.

(** [re.match(r, s)] as a truth value: some prefix of [s] matches. *)
Fixpoint match_ (r : regex) (s : list ascii) : bool :=
  nullable r ||
  match s with
  | [] => false
  | c :: s' => match_ (deriv c r) s'
  end.

(** [re.search(r, s)] as a truth value: a match starting at some position. *)
Fixpoint search (r : regex) (s : list ascii) : bool :=
  match_ r s ||
  match s with
  | [] => false
  | _ :: s' => search r s'
  end.

End Re.

(** ** Validator *)

(** [[0-9]] *)
Definition digit_class (c : ascii) : bool := Re.in_range "0" "9" c.

(** The bracket expression of the special characters; the escaped double
    quote of the source stands for the double quote alone (code point 34). *)
Definition special_chars : string :=
  String "!" (String "@" (String "#" (String "$" (String "%" (String "^"
  (String "&" (String "*" (String "(" (String ")" (String "," (String "."
  (String "?" (String (ascii_of_nat 34) (String ":" (String "{" (String "}"
  (String "|" (String "<" (String ">" EmptyString))))))))))))))))))).

Definition special_class (c : ascii) : bool := Re.one_of special_chars c.

Definition is_valid_password (password : string) : bool :=
  if Re.search (Re.Class digit_class) (list_ascii_of_string password)
     && Re.search (Re.Class special_class) (list_ascii_of_string password)
  then true
  else false.

(** [[a-zA-Z0-9._%+-]] *)
Definition local_class (c : ascii) : bool :=
  Re.in_range "a" "z" c || Re.in_range "A" "Z" c || Re.in_range "0" "9" c
  || Re.one_of "._%+-" c.

(** [[a-zA-Z0-9.-]] *)
Definition domain_class (c : ascii) : bool :=
  Re.in_range "a" "z" c || Re.in_range "A" "Z" c || Re.in_range "0" "9" c
  || Re.one_of ".-" c.

(** [[a-zA-Z]] *)
Definition letter_class (c : ascii) : bool :=
  Re.in_range "a" "z" c || Re.in_range "A" "Z" c.

(** [[a-zA-Z0-9._%+-]+@[a-zA-Z0-9.-]+\.[a-zA-Z]{2,}] *)
Definition pattern : Re.regex :=
  Re.Seq (Re.Plus (Re.Class local_class))
    (Re.Seq (Re.Lit "@")
       (Re.Seq (Re.Plus (Re.Class domain_class))
          (Re.Seq (Re.Lit ".")
             (Re.AtLeast 2 (Re.Class letter_class))))).

Definition is_valid_email (email : string) : bool :=
  if Re.match_ pattern (list_ascii_of_string email) then true else false.

(** ** Hasher: [hashlib.sha256(password.encode()).hexdigest()] *)

Module Sha256.

Local Open Scope Z_scope.

(** 32-bit words are integers in [0, 2^32); additions wrap around. *)
Definition wrap32 (x : Z) : Z := Z.land x 0xffffffff.
Definition add32 (x y : Z) : Z := wrap32 (x + y).
Definition rotr (n x : Z) : Z :=
  Z.lor (Z.shiftr x n) (wrap32 (Z.shiftl x (32 - n))).
Definition not32 (x : Z) : Z := Z.lxor x 0xffffffff.

Definition Ch (x y z : Z) : Z := Z.lxor (Z.land x y) (Z.land (not32 x) z).
Definition Maj (x y z : Z) : Z :=
  Z.lxor (Z.lxor (Z.land x y) (Z.land x z)) (Z.land y z).
Definition bsig0 (x : Z) : Z := Z.lxor (Z.lxor (rotr 2 x) (rotr 13 x)) (rotr 22 x).
Definition bsig1 (x : Z) : Z := Z.lxor (Z.lxor (rotr 6 x) (rotr 11 x)) (rotr 25 x).
Definition ssig0 (x : Z) : Z := Z.lxor (Z.lxor (rotr 7 x) (rotr 18 x)) (Z.shiftr x 3).
Definition ssig1 (x : Z) : Z := Z.lxor (Z.lxor (rotr 17 x) (rotr 19 x)) (Z.shiftr x 10).

(** The first [n] primes from 2 on, by trial division. *)
Definition is_prime (p : nat) : bool :=
  forallb (fun d => negb (Nat.eqb (Nat.modulo p d) 0)) (seq 2 (p - 2)).

Definition first_primes (n : nat) : list Z :=
  map Z.of_nat (firstn n (filter is_prime (seq 2 400))).

(** Integer cube root of a number below 2^108, one bit at a time. *)
Definition icbrt (x : Z) : Z :=
  fold_left
    (fun r i =>
       let r' := r + Z.shiftl 1 (Z.of_nat i) in
       if r' * r' * r' <=? x then r' else r)
    (rev (seq 0 36)) 0.

(** Round constants: the first 32 bits of the fractional parts of the cube
    roots of the first 64 primes. *)
Definition K : list Z :=
  Eval vm_compute in
    map (fun p => wrap32 (icbrt (Z.shiftl p 96))) (first_primes 64).

(** Initial hash value: the same with square roots, for the first 8 primes. *)
Definition H0 : list Z :=
  Eval vm_compute in
    map (fun p => wrap32 (Z.sqrt (Z.shiftl p 64))) (first_primes 8).

(** Big-endian bytes of [x], [n] of them. *)
Fixpoint be_bytes (n : nat) (x : Z) : list Z :=
  match n with
  | O => []
  | S n' => Z.land (Z.shiftr x (8 * Z.of_nat n')) 0xff :: be_bytes n' x
  end.

Definition be_word (bs : list Z) : Z :=
  fold_left (fun acc b => Z.lor (Z.shiftl acc 8) b) bs 0.

(** Padding: a 1 bit, zeros up to 56 mod 64, the bit length on 8 bytes. *)
Definition pad (msg : list Z) : list Z :=
  let len := Z.of_nat (length msg) in
  let zeros := Z.to_nat ((55 - len) mod 64) in
  msg ++ [0x80] ++ repeat 0 zeros ++ be_bytes 8 (8 * len).

Fixpoint chunks (n : nat) (size : nat) (bs : list Z) : list (list Z) :=
  match n with
  | O => []
  | S n' => firstn size bs :: chunks n' size (skipn size bs)
  end.

Definition words_of_block (block : list Z) : list Z :=
  map be_word (chunks 16 4 block).

Definition schedule (block : list Z) : list Z :=
  fold_left
    (fun w t =>
       w ++ [add32 (add32 (ssig1 (nth (t - 2) w 0)) (nth (t - 7) w 0))
                   (add32 (ssig0 (nth (t - 15) w 0)) (nth (t - 16) w 0))])
    (seq 16 48) (words_of_block block).

Record regs : Type :=
  Regs { ra : Z; rb : Z; rc : Z; rd : Z; re : Z; rf : Z; rg : Z; rh : Z }.

Definition round (w : list Z) (s : regs) (t : nat) : regs :=
  let t1 := add32 (add32 (add32 (rh s) (bsig1 (re s)))
                         (add32 (Ch (re s) (rf s) (rg s)) (nth t K 0)))
                  (nth t w 0) in
  let t2 := add32 (bsig0 (ra s)) (Maj (ra s) (rb s) (rc s)) in
  Regs (add32 t1 t2) (ra s) (rb s) (rc s) (add32 (rd s) t1) (re s) (rf s) (rg s).

Definition regs_of (h : list Z) : regs :=
  Regs (nth 0 h 0) (nth 1 h 0) (nth 2 h 0) (nth 3 h 0)
       (nth 4 h 0) (nth 5 h 0) (nth 6 h 0) (nth 7 h 0).

Definition compress (h : list Z) (block : list Z) : list Z :=
  let s0 := regs_of h in
  let s := fold_left (round (schedule block)) (seq 0 64) s0 in
  [ add32 (ra s0) (ra s); add32 (rb s0) (rb s); add32 (rc s0) (rc s);
    add32 (rd s0) (rd s); add32 (re s0) (re s); add32 (rf s0) (rf s);
    add32 (rg s0) (rg s); add32 (rh s0) (rh s) ].

(** The digest: 32 bytes. *)
Definition digest (msg : list Z) : list Z :=
  let padded := pad msg in
  let blocks := chunks (length padded / 64) 64 padded in
  flat_map (be_bytes 4) (fold_left compress blocks H0).

Definition hex_digit (x : Z) : ascii :=
  if x <? 10 then ascii_of_N (Z.to_N (48 + x)) else ascii_of_N (Z.to_N (87 + x)).

(** [hexdigest()]: two lowercase hexadecimal digits per byte. *)
Definition hexdigest (msg : list Z) : string :=
  string_of_list_ascii
    (flat_map (fun b => [hex_digit (Z.shiftr b 4); hex_digit (Z.land b 0xf)])
              (digest msg)).

End Sha256.

(** [str.encode()]: UTF-8; a code point below 128 is one byte, one in
    128..255 is two bytes. *)
Definition encode (s : string) : list Z :=
  flat_map
    (fun c =>
       let n := Z.of_N (N_of_ascii c) in
       if (n <? 128)%Z then [n]
       else [Z.lor 0xc0 (Z.shiftr n 6); Z.lor 0x80 (Z.land n 0x3f)])
    (list_ascii_of_string s).

Definition hash_password (password : string) : string :=
  Sha256.hexdigest (encode password).

(** ** The [users] table and the part of [sqlite3] the module uses *)

(** [CURRENT_TIMESTAMP], in seconds. *)
Definition timestamp : Type := Z.

(** One row of [users], column by column as in [CREATE_TABLE_QUERY]. *)
Module Users.
Record row : Type := Row {
  id : Z;
  email : string;
  password : string;
  is_active : bool;
  registration_date : option timestamp;
  activation_date : option timestamp
}.
End Users.

Module Sqlite3.

Inductive exn : Type :=
| OperationalError (msg : string)
| IntegrityError (msg : string)
| ProgrammingError (msg : string).

(** An open connection: the file it was opened on and, inside a
    transaction, the working copy of the table that [commit] will store. *)
Record connection : Type := Conn {
  database : string;
  pending : option (list Users.row)
}.

(** The world: for each path the committed [users] table of the database
    there (no entry: no such table), the open connections by handle, and
    the clock. *)
Record world : Type := World {
  tables : gmap string (list Users.row);
  connections : gmap nat connection;
  current_timestamp : timestamp
}.

Inductive result (A : Type) : Type :=
| Value (a : A)
| Raise (e : exn).
Arguments Value {A} a.
Arguments Raise {A} e.

(** State and exception monad. *)
Definition M (A : Type) : Type := world -> result A * world.

Definition ret {A} (a : A) : M A := fun w => (Value a, w).
Definition bind {A B} (m : M A) (k : A -> M B) : M B :=
  fun w =>
    match m w with
    | (Value a, w') => k a w'
    | (Raise e, w') => (Raise e, w')
    end.

Definition set_connections (cs : gmap nat connection) (w : world) : world :=
  World (tables w) cs (current_timestamp w).
Definition set_tables (ts : gmap string (list Users.row)) (w : world) : world :=
  World ts (connections w) (current_timestamp w).

(** [sqlite3.connect(db_path)]: a new handle, no transaction open.
    [db_path] is taken to name a database file that can be opened, each
    file under one name: the names [:memory:] and the empty one, which give
    a private database at every [connect], two spellings of one file, and a
    path that cannot be opened are outside this model. *)
Definition connect (db_path : string) : M nat :=
  fun w =>
    let h := fresh (dom (connections w)) in
    (Value h, set_connections (<[h := Conn db_path None]> (connections w)) w).

(** The table a connection reads: its working copy inside a transaction,
    the committed table otherwise. *)
Definition visible (c : connection) (w : world) : option (list Users.row) :=
  match pending c with
  | Some t => Some t
  | None => tables w !! database c
  end.

Definition with_table {A} (conn : nat)
    (k : connection -> list Users.row -> world -> result A * world) : M A :=
  fun w =>
    match connections w !! conn with
    | None => (Raise (ProgrammingError "Cannot operate on a closed database."), w)
    | Some c =>
        match visible c w with
        | None => (Raise (OperationalError "no such table: users"), w)
        | Some t => k c t w
        end
    end.

(** [cursor.execute("SELECT cols FROM users WHERE ...")] followed by
    [cursor.fetchone()]: the first selected row, or [None]. *)
Definition select_fetchone {A} (conn : nat) (cols : Users.row -> A)
    (where_ : Users.row -> bool) : M (option A) :=
  with_table conn (fun _ t w => (Value (option_map cols (find where_ t)), w)).

(** A data-modifying statement opens a transaction implicitly; its effect
    stays in the connection's working copy until [commit]. *)
Definition modify (conn : nat)
    (stmt : timestamp -> list Users.row -> result (list Users.row)) : M unit :=
  with_table conn (fun c t w =>
    match stmt (current_timestamp w) t with
    | Raise e => (Raise e, w)
    | Value t' =>
        (Value tt,
         set_connections (<[conn := Conn (database c) (Some t')]> (connections w)) w)
    end).

(** [id INTEGER PRIMARY KEY AUTOINCREMENT]: one more than the largest id
    (no row is ever deleted). *)
Definition next_id (t : list Users.row) : Z :=
  (1 + fold_right Z.max 0 (map Users.id t))%Z.

(** [INSERT INTO users (email, password, is_active) VALUES (?, ?, ?)]:
    [registration_date] defaults to [CURRENT_TIMESTAMP], [activation_date]
    to [NULL]; [email] is [UNIQUE]. *)
Definition insert_user (conn : nat) (email password : string) (is_active : bool)
    : M unit :=
  modify conn (fun now t =>
    if existsb (fun r => String.eqb (Users.email r) email) t
    then Raise (IntegrityError "UNIQUE constraint failed: users.email")
    else Value (t ++ [Users.Row (next_id t) email password is_active
                                (Some now) None])).

(** [UPDATE users SET ... WHERE ...]. *)
Definition update_where (conn : nat) (set_ : timestamp -> Users.row -> Users.row)
    (where_ : Users.row -> bool) : M unit :=
  modify conn (fun now t =>
    Value (map (fun r => if where_ r then set_ now r else r) t)).

(** [CREATE TABLE IF NOT EXISTS users (...)]. *)
Definition create_table_if_not_exists (conn : nat) : M unit :=
  fun w =>
    match connections w !! conn with
    | None => (Raise (ProgrammingError "Cannot operate on a closed database."), w)
    | Some c =>
        match visible c w with
        | Some _ => (Value tt, w)
        | None => (Value tt, set_tables (<[database c := []]> (tables w)) w)
        end
    end.

(** [conn.commit()]. *)
Definition commit (conn : nat) : M unit :=
  fun w =>
    match connections w !! conn with
    | None => (Raise (ProgrammingError "Cannot operate on a closed database."), w)
    | Some c =>
        match pending c with
        | None => (Value tt, w)
        | Some t =>
            (Value tt,
             World (<[database c := t]> (tables w))
                   (<[conn := Conn (database c) None]> (connections w))
                   (current_timestamp w))
        end
    end.

(** [conn.close()]: uncommitted changes are lost with the handle. *)
Definition close (conn : nat) : M unit :=
  fun w => (Value tt, set_connections (delete conn (connections w)) w).

End Sqlite3.

Import Sqlite3.

Notation "x <- c1 ;; c2" := (bind c1 (fun x => c2))
  (at level 20, c1 at level 99, c2 at level 200, only parsing).
Notation "c1 ;; c2" := (bind c1 (fun _ => c2))
  (at level 100, c2 at level 200, right associativity, only parsing).

(** [WHERE email = ?] *)
Definition email_is (email : string) (r : Users.row) : bool :=
  String.eqb (Users.email r) email.

(** [SET is_active = True, activation_date = CURRENT_TIMESTAMP] *)
Definition set_activation (now : timestamp) (r : Users.row) : Users.row :=
  Users.Row (Users.id r) (Users.email r) (Users.password r)
            true (Users.registration_date r) (Some now).

(** [SET password = ?] *)
Definition set_password (hashed_password : string) (r : Users.row) : Users.row :=
  Users.Row (Users.id r) (Users.email r) hashed_password
            (Users.is_active r) (Users.registration_date r) (Users.activation_date r).

(** The rows of [t] after an [UPDATE ... WHERE email = ?]. *)
Definition updated (set_ : Users.row -> Users.row) (email : string)
    (t : list Users.row) : list Users.row :=
  map (fun r => if email_is email r then set_ r else r) t.

(** ** Schema manager *)

Definition create_database (db_path : string) : M unit :=
  conn <- connect db_path ;;
  create_table_if_not_exists conn ;;
  commit conn ;;
  close conn.

(** ** Account service *)

Definition register_user (db_path email password : string) : M (bool * string) :=
  if negb (is_valid_email email) then
    ret (false, "Invalid email format")
  else if negb (is_valid_password password) then
    ret (false, "Password should contain at least one digit and one special character.")
  else
    conn <- connect db_path ;;
    found <- select_fetchone conn (fun r => r) (email_is email) ;;
    match found with
    | Some _ =>
        close conn ;;
        ret (false, "Email already registered")
    | None =>
        let hashed_password := hash_password password in
        insert_user conn email hashed_password false ;;
        commit conn ;;
        close conn ;;
        ret (true, "Registration successful")
    end.

Definition activate_user (db_path email : string) : M (bool * string) :=
  conn <- connect db_path ;;
  found <- select_fetchone conn (fun r => r) (email_is email) ;;
  match found with
  | None =>
      close conn ;;
      ret (false, "User not found")
  | Some _ =>
      update_where conn set_activation (email_is email) ;;
      commit conn ;;
      close conn ;;
      ret (true, "User activated")
  end.

Definition authenticate_user (db_path email password : string) : M (bool * string) :=
  conn <- connect db_path ;;
  result <- select_fetchone conn
              (fun r => (Users.password r, Users.is_active r)) (email_is email) ;;
  if match result with
     | Some (stored, active) =>
         String.eqb (hash_password password) stored && active
     | None => false
     end
  then
    ret (true, "Authentication successful")
  else
    close conn ;;
    ret (false, "Invalid credentials or account not activated").

Definition reset_password (db_path email new_password : string) : M (bool * string) :=
  if negb (is_valid_password new_password) then
    ret (false, "Password should contain at least one digit and one special character.")
  else
    conn <- connect db_path ;;
    found <- select_fetchone conn (fun r => r) (email_is email) ;;
    match found with
    | None =>
        close conn ;;
        ret (false, "User not found")
    | Some _ =>
        let hashed_password := hash_password new_password in
        update_where conn (fun _ => set_password hashed_password) (email_is email) ;;
        commit conn ;;
        close conn ;;
        ret (true, "Password reset successfully")
    end.

(** The world before anything ran: no database, no connection. *)
Definition empty_world (now : timestamp) : world := World ∅ ∅ now.

(** The run of the module's own demonstration: the database created, one
    user registered and activated. *)
Definition demo_world : world :=
  snd (activate_user "users.db" "jacksparrow@gmail.com"
    (snd (register_user "users.db" "jacksparrow@gmail.com" "myweakpassword$12"
      (snd (create_database "users.db" (empty_world 100%Z)))))).

Definition no_such_table : exn := OperationalError "no such table: users".

(** ** Notions the properties are stated with *)

Definition chars (s : string) : list ascii := list_ascii_of_string s.

Definition decimal_digits : list ascii := chars "0123456789".

Definition special_set : list ascii :=
  [ "!"; "@"; "#"; "$"; "%"; "^"; "&"; "*"; "("; ")"; ","; "."; "?";
    ascii_of_nat 34; ":"; "{"; "}"; "|"; "<"; ">" ]%char.

Definition letters : list ascii :=
  chars "abcdefghijklmnopqrstuvwxyzABCDEFGHIJKLMNOPQRSTUVWXYZ".

Definition local_set : list ascii := letters ++ decimal_digits ++ chars "._%+-".

Definition domain_set : list ascii := letters ++ decimal_digits ++ chars ".-".

(** One-or-more local characters, [@], one-or-more domain characters, a
    dot, two-or-more letters. *)
Definition email_shape (p : list ascii) : Prop :=
  exists loc dom tld,
    p = loc ++ "@"%char :: dom ++ "."%char :: tld
    /\ loc <> [] /\ Forall (fun c => In c local_set) loc
    /\ dom <> [] /\ Forall (fun c => In c domain_set) dom
    /\ (2 <= length tld)%nat /\ Forall (fun c => In c letters) tld.

(** The record of [users] that matches [email], if any. *)
Definition record_of (email : string) (t : list Users.row) : option Users.row :=
  find (email_is email) t.

(** [activation_date] is non-null exactly when [is_active] is true. *)
Definition activation_consistent (r : Users.row) : Prop :=
  Users.activation_date r <> None <-> Users.is_active r = true.

(** Time passing between two calls. *)
Definition set_clock (now : timestamp) (w : world) : world :=
  World (tables w) (connections w) now.

(** A call of the account service. *)
Inductive call : Type :=
| RegisterUser (db_path email password : string)
| ActivateUser (db_path email : string)
| AuthenticateUser (db_path email password : string)
| ResetPassword (db_path email new_password : string).

Definition run (c : call) : M (bool * string) :=
  match c with
  | RegisterUser db_path email password => register_user db_path email password
  | ActivateUser db_path email => activate_user db_path email
  | AuthenticateUser db_path email password => authenticate_user db_path email password
  | ResetPassword db_path email new_password => reset_password db_path email new_password
  end.

(** One step: any call, returning or raising, or the clock moving. *)
Inductive step : world -> world -> Prop :=
| step_call c w : step w (snd (run c w))
| step_clock now w : step w (set_clock now w).

Inductive reachable (w0 : world) : world -> Prop :=
| reachable_start : reachable w0 w0
| reachable_step w w' : reachable w0 w -> step w w' -> reachable w0 w'.

(** Every [users] table is empty. *)
Definition empty_tables (w : world) : Prop :=
  forall db_path t, tables w !! db_path = Some t -> t = [].

(** The database of the tests: created, nothing registered. *)
Definition created_world : world :=
  snd (create_database "tests.db" (empty_world 0%Z)).

(** One user registered and not activated. *)
Definition registered_world : world :=
  snd (register_user "tests.db" "resetuser@example.com" "OldPassword123!"
         created_world).

(** That user activated. *)
Definition activated_world : world :=
  snd (activate_user "tests.db" "resetuser@example.com" registered_world).

(** The invariant: every record of every table is consistent. *)
Definition tables_consistent (w : world) : Prop :=
  forall db_path t r,
    tables w !! db_path = Some t -> In r t -> activation_consistent r.

(** ** Further notions: what a call names, and how a table changes *)

Definition call_path (c : call) : string :=
  match c with
  | RegisterUser db_path _ _ => db_path
  | ActivateUser db_path _ => db_path
  | AuthenticateUser db_path _ _ => db_path
  | ResetPassword db_path _ _ => db_path
  end.

Definition call_email (c : call) : string :=
  match c with
  | RegisterUser _ email _ => email
  | ActivateUser _ email => email
  | AuthenticateUser _ email _ => email
  | ResetPassword _ email _ => email
  end.

(** The three statements that write to [users], for the email they name:
    the [INSERT] of [register_user], the [UPDATE] of [activate_user], the
    [UPDATE] of [reset_password]. *)
Inductive table_change (email : string) : list Users.row -> list Users.row -> Prop :=
| change_insert hashed now t :
    record_of email t = None ->
    table_change email t
      (t ++ [Users.Row (next_id t) email hashed false (Some now) None])
| change_activate now t :
    table_change email t (updated (set_activation now) email t)
| change_password hashed t :
    table_change email t (updated (set_password hashed) email t).

(** Lowercase hexadecimal digits. *)
Definition hex_digits : list ascii := chars "0123456789abcdef".

(** Case analysis over all 256 characters, each case by computation. *)
Ltac all_chars c :=
  destruct c as [[] [] [] [] [] [] [] []]; vm_compute; reflexivity.

Example ex_pw1 : is_valid_password "validpass%1" = true. Proof. reflexivity. Qed.
Example ex_pw2 : is_valid_password "notvalidpass&" = false. Proof. reflexivity. Qed.
Example ex_pw3 : is_valid_password "notvalidpass1" = false. Proof. reflexivity. Qed.
Example ex_pw4 : is_valid_password "" = false. Proof. reflexivity. Qed.
Example ex_em1 : is_valid_email "info@correct.com" = true. Proof. vm_compute. reflexivity. Qed.
Example ex_em2 : is_valid_email "info.notcorrect.com" = false. Proof. vm_compute. reflexivity. Qed.
Example ex_em3 : is_valid_email "" = false. Proof. reflexivity. Qed.
Example ex_em4 : is_valid_email "a@b.com<script>" = true. Proof. vm_compute. reflexivity. Qed.

Example ex_sha_constants :
  nth 0 Sha256.K 0%Z = 0x428a2f98%Z /\ nth 63 Sha256.K 0%Z = 0xc67178f2%Z
  /\ length Sha256.K = 64%nat
  /\ nth 0 Sha256.H0 0%Z = 0x6a09e667%Z /\ nth 7 Sha256.H0 0%Z = 0x5be0cd19%Z.
Proof. repeat split. Qed.
Example ex_sha_empty :
  hash_password "" = "e3b0c44298fc1c149afbf4c8996fb92427ae41e4649b934ca495991b7852b855".
Proof. vm_compute. reflexivity. Qed.
Example ex_sha_abc :
  hash_password "abc" = "ba7816bf8f01cfea414140de5dae2223b00361a396177a9cb410ff61f20015ad".
Proof. vm_compute. reflexivity. Qed.
Example ex_sha_pw :
  hash_password "Password123!" = "a109e36947ad56de1dca1cc49f0ef8ac9ad9a7b1aa0df41fb3c4cb73c1ff01ea".
Proof. vm_compute. reflexivity. Qed.
Example ex_sha_two_blocks :
  hash_password "aaaaaaaaaaaaaaaaaaaaaaaaaaaaaaaaaaaaaaaaaaaaaaaaaaaaaaaaaaaaaaaaaaaaaa"
  = "6bd5e5034855a11241f0dee8fc72850ffd9955b28347a86428b5fa19119f6ad0".
Proof. vm_compute. reflexivity. Qed.
Example ex_sha_latin1 :
  hash_password (String (ascii_of_nat 233) "1!")
  = "31b20c984ec88411beb760e96c631471de4299de5e7a9cd8eb342a33ed0737a8".
Proof. vm_compute. reflexivity. Qed.

Example ex_demo1 :
  fst (authenticate_user "users.db" "jackiechan@gmail.com" "myveryweakpass&12" demo_world)
  = Value (false, "Invalid credentials or account not activated").
Proof. vm_compute. reflexivity. Qed.
Example ex_demo2 :
  fst (authenticate_user "users.db" "jacksparrow@gmail.com" "myweakpassword$12" demo_world)
  = Value (true, "Authentication successful").
Proof. vm_compute. reflexivity. Qed.
Example ex_demo3 :
  fst (register_user "users.db" "myemail@dd.com" "pass" demo_world)
  = Value (false, "Password should contain at least one digit and one special character.").
Proof. vm_compute. reflexivity. Qed.
Example ex_demo4 :
  fst (register_user "nodb" "myemail@dd.com" "pass1!" demo_world)
  = Raise (OperationalError "no such table: users").
Proof. vm_compute. reflexivity. Qed.

(** ** Correctness of the matcher *)

Module ReFacts.
Import Re.

Lemma lang_Seq_inv r1 r2 s :
  lang (Seq r1 r2) s -> exists s1 s2, s = s1 ++ s2 /\ lang r1 s1 /\ lang r2 s2.
Proof. inversion 1; subst; eauto. Qed.

Lemma lang_Class_inv f s : lang (Class f) s -> exists c, s = [c] /\ f c = true.
Proof. inversion 1; subst; eauto. Qed.

Lemma lang_Alt_inv r1 r2 s : lang (Alt r1 r2) s -> lang r1 s \/ lang r2 s.
Proof. inversion 1; subst; auto. Qed.

Lemma nullable_lang r : nullable r = true <-> lang r [].
Proof.
  split.
  - induction r; simpl; intros Hn; try discriminate.
    + constructor.
    + apply andb_prop in Hn as [H1 H2].
      change (@nil ascii) with (@nil ascii ++ []). constructor; auto.
    + apply orb_prop in Hn as [H1 | H2]; [apply L_AltL | apply L_AltR]; auto.
    + constructor.
  - induction r; simpl; intros Hl; auto.
    + inversion Hl.
    + inversion Hl.
    + apply lang_Seq_inv in Hl as (s1 & s2 & Heq & H1 & H2).
      symmetry in Heq. apply app_eq_nil in Heq as [-> ->].
      rewrite IHr1, IHr2; auto.
    + apply lang_Alt_inv in Hl as [H1 | H2].
      * rewrite IHr1; auto.
      * rewrite IHr2; auto. apply orb_true_r.
Qed.

(** A non-empty word of [r*] starts with a non-empty word of [r]. *)
Lemma lang_Star_cons r c s :
  lang (Star r) (c :: s) ->
  exists s1 s2, s = s1 ++ s2 /\ lang r (c :: s1) /\ lang (Star r) s2.
Proof.
  intros Hl. remember (Star r) as r' eqn:Hr. remember (c :: s) as w eqn:Hw.
  revert c s Hw.
  induction Hl; intros c' s' Hw; try discriminate.
  injection Hr as ->.
  destruct s1 as [|a s1].
  - simpl in Hw. apply IHHl2; auto.
  - simpl in Hw. injection Hw as -> <-. eauto.
Qed.

Lemma deriv_lang r : forall c s, lang (deriv c r) s <-> lang r (c :: s).
Proof.
  induction r; intros c s; simpl.
  - split; inversion 1.
  - split; inversion 1.
  - destruct (f c) eqn:Hf; split; intros Hl.
    + inversion Hl; subst. constructor; auto.
    + inversion Hl; subst. constructor.
    + inversion Hl.
    + inversion Hl; subst. congruence.
  - destruct (nullable r1) eqn:Hn; split; intros Hl.
    + apply lang_Alt_inv in Hl as [Hl | Hl].
      * apply lang_Seq_inv in Hl as (s1 & s2 & -> & H1 & H2).
        apply IHr1 in H1. change (c :: s1 ++ s2) with ((c :: s1) ++ s2).
        constructor; auto.
      * apply IHr2 in Hl. change (c :: s) with ([] ++ c :: s).
        constructor; auto. apply nullable_lang; auto.
    + apply lang_Seq_inv in Hl as (s1 & s2 & Heq & H1 & H2).
      destruct s1 as [|a s1]; simpl in Heq.
      * subst s2. apply L_AltR. apply IHr2; auto.
      * injection Heq as <- ->. apply L_AltL. constructor; auto.
        apply IHr1; auto.
    + apply lang_Seq_inv in Hl as (s1 & s2 & -> & H1 & H2).
      apply IHr1 in H1. change (c :: s1 ++ s2) with ((c :: s1) ++ s2).
      constructor; auto.
    + apply lang_Seq_inv in Hl as (s1 & s2 & Heq & H1 & H2).
      destruct s1 as [|a s1]; simpl in Heq.
      * apply nullable_lang in H1. congruence.
      * injection Heq as <- ->. constructor; auto. apply IHr1; auto.
  - split; intros Hl.
    + apply lang_Alt_inv in Hl as [Hl | Hl].
      * apply L_AltL, IHr1; auto.
      * apply L_AltR, IHr2; auto.
    + apply lang_Alt_inv in Hl as [Hl | Hl].
      * apply L_AltL, IHr1; auto.
      * apply L_AltR, IHr2; auto.
  - split; intros Hl.
    + apply lang_Seq_inv in Hl as (s1 & s2 & -> & H1 & H2).
      apply IHr in H1. change (c :: s1 ++ s2) with ((c :: s1) ++ s2).
      constructor; auto.
    + apply lang_Star_cons in Hl as (s1 & s2 & -> & H1 & H2).
      constructor; auto. apply IHr; auto.
Qed.

(** [match_] finds exactly the words with a prefix in the language. *)
Lemma match_prefix s : forall r,
  match_ r s = true <-> exists p q, s = p ++ q /\ lang r p.
Proof.
  induction s as [|c s IH]; intros r; simpl.
  - rewrite orb_false_r, nullable_lang. split.
    + intros Hl. exists [], []. auto.
    + intros (p & q & Heq & Hl). symmetry in Heq.
      apply app_eq_nil in Heq as [-> _]. auto.
  - rewrite orb_true_iff, nullable_lang, IH. split.
    + intros [Hl | (p & q & -> & Hl)].
      * exists [], (c :: s). auto.
      * exists (c :: p), q. split; auto. apply deriv_lang; auto.
    + intros (p & q & Heq & Hl). destruct p as [|a p]; simpl in Heq.
      * left; auto.
      * injection Heq as <- ->. right. exists p, q. split; auto.
        apply deriv_lang; auto.
Qed.

(** [search] finds exactly the words with a factor in the language. *)
Lemma search_factor r s :
  search r s = true <-> exists a p q, s = a ++ p ++ q /\ lang r p.
Proof.
  induction s as [|c s IH]; simpl.
  - rewrite !orb_false_r, nullable_lang. split.
    + intros Hl. exists [], [], []. auto.
    + intros (a & p & q & Heq & Hl). symmetry in Heq.
      apply app_eq_nil in Heq as [_ Heq]. apply app_eq_nil in Heq as [-> _]. auto.
  - rewrite orb_true_iff, IH. split.
    + intros [Hm | (a & p & q & -> & Hl)].
      * change (match_ r (c :: s) = true) in Hm.
        apply match_prefix in Hm as (p & q & Heq & Hl).
        exists [], p, q. auto.
      * exists (c :: a), p, q. auto.
    + intros (a & p & q & Heq & Hl). destruct a as [|x a]; simpl in Heq.
      * left. change (match_ r (c :: s) = true). apply match_prefix. eauto.
      * injection Heq as <- ->. right. eauto.
Qed.

(** Searching for one bracket expression: some character is in it. *)
Lemma search_Class f s : search (Class f) s = existsb f s.
Proof.
  apply eq_true_iff_eq. rewrite search_factor, existsb_exists. split.
  - intros (a & p & q & -> & Hl). apply lang_Class_inv in Hl as (c & -> & Hc).
    exists c. split; auto. apply in_or_app. right. left. reflexivity.
  - intros (c & Hin & Hc). apply in_split in Hin as (a & q & ->).
    exists a, [c], q. split; auto. constructor; auto.
Qed.

Lemma lang_Star_Class f s : lang (Star (Class f)) s <-> forallb f s = true.
Proof.
  split.
  - intros Hl. remember (Star (Class f)) as r eqn:Hr.
    induction Hl; try discriminate; auto.
    injection Hr as ->. apply lang_Class_inv in Hl1 as (c & -> & Hc).
    simpl. rewrite Hc. auto.
  - induction s as [|c s IH]; simpl; intros Hf.
    + constructor.
    + apply andb_prop in Hf as [Hc Hs].
      change (c :: s) with ([c] ++ s). constructor; auto. constructor; auto.
Qed.

Lemma lang_Plus_Class f s :
  lang (Plus (Class f)) s <-> s <> [] /\ forallb f s = true.
Proof.
  unfold Plus. split.
  - intros Hl. apply lang_Seq_inv in Hl as (s1 & s2 & -> & H1 & H2).
    apply lang_Class_inv in H1 as (c & -> & Hc). apply lang_Star_Class in H2.
    simpl. rewrite Hc, H2. split; [discriminate | reflexivity].
  - intros [Hne Hf]. destruct s as [|c s]; [congruence|].
    simpl in Hf. apply andb_prop in Hf as [Hc Hs].
    change (c :: s) with ([c] ++ s). constructor.
    + constructor; auto.
    + apply lang_Star_Class; auto.
Qed.

Lemma lang_AtLeast_Class f n : forall s,
  lang (AtLeast n (Class f)) s <-> (n <= length s)%nat /\ forallb f s = true.
Proof.
  induction n as [|n IH]; intros s; simpl.
  - rewrite lang_Star_Class. split; [intros H; split; [lia | auto] | tauto].
  - split.
    + intros Hl. apply lang_Seq_inv in Hl as (s1 & s2 & -> & H1 & H2).
      apply lang_Class_inv in H1 as (c & -> & Hc). apply IH in H2 as [Hlen Hf].
      simpl. rewrite Hc, Hf. split; [lia | reflexivity].
    + intros [Hlen Hf]. destruct s as [|c s]; [simpl in Hlen; lia|].
      simpl in Hf, Hlen. apply andb_prop in Hf as [Hc Hs].
      change (c :: s) with ([c] ++ s). constructor.
      * constructor; auto.
      * apply IH. split; [lia | auto].
Qed.

Lemma lang_Lit c s : lang (Lit c) s <-> s = [c].
Proof.
  unfold Lit. split.
  - intros Hl. apply lang_Class_inv in Hl as (x & -> & Hx).
    apply Ascii.eqb_eq in Hx. congruence.
  - intros ->. constructor. apply Ascii.eqb_refl.
Qed.

End ReFacts.

(** ** Running the account operations *)

Section Run.

Variables (w : world) (db_path : string).

Lemma fresh_handle_closed : connections w !! fresh (dom (connections w)) = None.
Proof. apply not_elem_of_dom, is_fresh. Qed.

(** Opening a connection and closing it leaves the world as it was. *)
Lemma close_fresh c :
  set_connections
    (delete (fresh (dom (connections w)))
            (<[fresh (dom (connections w)) := c]> (connections w)))
    (set_connections (<[fresh (dom (connections w)) := c]> (connections w)) w)
  = w.
Proof.
  unfold set_connections; simpl.
  rewrite delete_insert_id by apply fresh_handle_closed. destruct w; reflexivity.
Qed.

Lemma find_existsb {A} (f : A -> bool) (l : list A) :
  find f l = None -> existsb f l = false.
Proof.
  induction l as [|a l IH]; simpl; auto.
  destruct (f a); [discriminate | auto].
Qed.

Variable t : list Users.row.
Hypothesis Htab : tables w !! db_path = Some t.

Lemma register_user_eq email password :
  register_user db_path email password w =
  if negb (is_valid_email email) then
    (Value (false, "Invalid email format"), w)
  else if negb (is_valid_password password) then
    (Value (false, "Password should contain at least one digit and one special character."), w)
  else match find (email_is email) t with
       | Some _ => (Value (false, "Email already registered"), w)
       | None =>
           (Value (true, "Registration successful"),
            set_tables
              (<[db_path := t ++ [Users.Row (next_id t) email (hash_password password)
                                            false (Some (current_timestamp w)) None]]>
                 (tables w)) w)
       end.
Proof.
  unfold register_user.
  destruct (negb (is_valid_email email)); [reflexivity|].
  destruct (negb (is_valid_password password)); [reflexivity|].
  unfold bind, connect, select_fetchone, with_table, visible; simpl.
  rewrite lookup_insert_eq; simpl. rewrite Htab.
  destruct (find (email_is email) t) eqn:Hf; simpl.
  - unfold close, ret. rewrite close_fresh. reflexivity.
  - unfold insert_user, modify, with_table, visible; simpl.
    rewrite lookup_insert_eq; simpl. rewrite Htab.
    apply find_existsb in Hf. unfold email_is in Hf. rewrite Hf.
    unfold commit; simpl. rewrite lookup_insert_eq; simpl.
    unfold close, ret, set_connections, set_tables; simpl.
    rewrite !delete_insert_eq, delete_id by apply fresh_handle_closed.
    reflexivity.
Qed.

Lemma activate_user_eq email :
  activate_user db_path email w =
  match find (email_is email) t with
  | None => (Value (false, "User not found"), w)
  | Some _ =>
      (Value (true, "User activated"),
       set_tables
         (<[db_path := updated (set_activation (current_timestamp w)) email t]>
            (tables w)) w)
  end.
Proof.
  unfold activate_user.
  unfold bind, connect, select_fetchone, with_table, visible; simpl.
  rewrite lookup_insert_eq; simpl. rewrite Htab.
  destruct (find (email_is email) t) eqn:Hf; simpl.
  - unfold update_where, modify, with_table, visible; simpl.
    rewrite lookup_insert_eq; simpl. rewrite Htab.
    unfold commit; simpl. rewrite lookup_insert_eq; simpl.
    unfold close, ret, set_connections, set_tables; simpl.
    rewrite !delete_insert_eq, delete_id by apply fresh_handle_closed.
    reflexivity.
  - unfold close, ret. rewrite close_fresh. reflexivity.
Qed.

Lemma authenticate_user_eq email password :
  authenticate_user db_path email password w =
  match find (email_is email) t with
  | Some r =>
      if String.eqb (hash_password password) (Users.password r) && Users.is_active r
      then (Value (true, "Authentication successful"),
            set_connections
              (<[fresh (dom (connections w)) := Conn db_path None]> (connections w)) w)
      else (Value (false, "Invalid credentials or account not activated"), w)
  | None => (Value (false, "Invalid credentials or account not activated"), w)
  end.
Proof.
  unfold authenticate_user.
  unfold bind, connect, select_fetchone, with_table, visible; simpl.
  rewrite lookup_insert_eq; simpl. rewrite Htab.
  destruct (find (email_is email) t) as [r|] eqn:Hf; simpl.
  - destruct (String.eqb (hash_password password) (Users.password r)
              && Users.is_active r); [reflexivity|].
    unfold close, ret; simpl. rewrite close_fresh. reflexivity.
  - unfold close, ret. rewrite close_fresh. reflexivity.
Qed.

Lemma reset_password_eq email new_password :
  reset_password db_path email new_password w =
  if negb (is_valid_password new_password) then
    (Value (false, "Password should contain at least one digit and one special character."), w)
  else match find (email_is email) t with
       | None => (Value (false, "User not found"), w)
       | Some _ =>
           (Value (true, "Password reset successfully"),
            set_tables
              (<[db_path := updated (set_password (hash_password new_password)) email t]>
                 (tables w)) w)
       end.
Proof.
  unfold reset_password.
  destruct (negb (is_valid_password new_password)); [reflexivity|].
  unfold bind, connect, select_fetchone, with_table, visible; simpl.
  rewrite lookup_insert_eq; simpl. rewrite Htab.
  destruct (find (email_is email) t) eqn:Hf; simpl.
  - unfold update_where, modify, with_table, visible; simpl.
    rewrite lookup_insert_eq; simpl. rewrite Htab.
    unfold commit; simpl. rewrite lookup_insert_eq; simpl.
    unfold close, ret, set_connections, set_tables; simpl.
    rewrite !delete_insert_eq, delete_id by apply fresh_handle_closed.
    reflexivity.
  - unfold close, ret. rewrite close_fresh. reflexivity.
Qed.

End Run.

(** Without a [users] table at [db_path] an operation that reaches the
    database raises; the committed tables stay as they were. *)
Section NoTable.

Variables (w : world) (db_path : string).
Hypothesis Hnone : tables w !! db_path = None.

Lemma register_user_no_table email password :
  tables (snd (register_user db_path email password w)) = tables w /\
  (forall r, fst (register_user db_path email password w) = Value r ->
             snd (register_user db_path email password w) = w /\ fst r = false).
Proof.
  unfold register_user.
  destruct (negb (is_valid_email email)).
  { simpl. split; [reflexivity|]. intros r [= <-]. auto. }
  destruct (negb (is_valid_password password)).
  { simpl. split; [reflexivity|]. intros r [= <-]. auto. }
  unfold bind, connect, select_fetchone, with_table, visible; simpl.
  rewrite lookup_insert_eq; simpl. rewrite Hnone. simpl.
  split; [reflexivity | discriminate].
Qed.

Lemma activate_user_no_table email :
  tables (snd (activate_user db_path email w)) = tables w /\
  fst (activate_user db_path email w) = Raise no_such_table.
Proof.
  unfold activate_user.
  unfold bind, connect, select_fetchone, with_table, visible; simpl.
  rewrite lookup_insert_eq; simpl. rewrite Hnone. simpl. auto.
Qed.

Lemma authenticate_user_no_table email password :
  tables (snd (authenticate_user db_path email password w)) = tables w /\
  fst (authenticate_user db_path email password w) = Raise no_such_table.
Proof.
  unfold authenticate_user.
  unfold bind, connect, select_fetchone, with_table, visible; simpl.
  rewrite lookup_insert_eq; simpl. rewrite Hnone. simpl. auto.
Qed.

Lemma reset_password_no_table email new_password :
  tables (snd (reset_password db_path email new_password w)) = tables w /\
  (forall r, fst (reset_password db_path email new_password w) = Value r ->
             snd (reset_password db_path email new_password w) = w /\ fst r = false).
Proof.
  unfold reset_password.
  destruct (negb (is_valid_password new_password)).
  { simpl. split; [reflexivity|]. intros r [= <-]. auto. }
  unfold bind, connect, select_fetchone, with_table, visible; simpl.
  rewrite lookup_insert_eq; simpl. rewrite Hnone. simpl.
  split; [reflexivity | discriminate].
Qed.

End NoTable.

(** ** The validators *)

Section Validators.

Lemma chars_append s1 s2 : chars (String.append s1 s2) = chars s1 ++ chars s2.
Proof.
  unfold chars. induction s1 as [|c s1 IH]; simpl; [reflexivity|].
  rewrite IH. reflexivity.
Qed.

Lemma existsb_eqb_In (c : ascii) (l : list ascii) :
  existsb (Ascii.eqb c) l = true <-> In c l.
Proof.
  rewrite existsb_exists. split.
  - intros (x & Hin & Heq). apply Ascii.eqb_eq in Heq. subst; auto.
  - intros Hin. exists c. split; auto. apply Ascii.eqb_refl.
Qed.

(** The bracket expressions of the source, written with ranges, hold the
    characters listed one by one in the sets above. *)
Lemma digit_class_enum c : digit_class c = existsb (Ascii.eqb c) decimal_digits.
Proof. all_chars c. Qed.

Lemma special_class_enum c : special_class c = existsb (Ascii.eqb c) special_set.
Proof. all_chars c. Qed.

Lemma local_class_enum c : local_class c = existsb (Ascii.eqb c) local_set.
Proof. all_chars c. Qed.

Lemma domain_class_enum c : domain_class c = existsb (Ascii.eqb c) domain_set.
Proof. all_chars c. Qed.

Lemma letter_class_enum c : letter_class c = existsb (Ascii.eqb c) letters.
Proof. all_chars c. Qed.

Lemma existsb_class (f : ascii -> bool) (set : list ascii) (s : list ascii) :
  (forall c, f c = existsb (Ascii.eqb c) set) ->
  existsb f s = true <-> exists c, In c s /\ In c set.
Proof.
  intros Hf. rewrite existsb_exists. split.
  - intros (c & Hin & Hc). rewrite Hf in Hc. apply existsb_eqb_In in Hc. eauto.
  - intros (c & Hin & Hc). exists c. split; auto.
    rewrite Hf. apply existsb_eqb_In; auto.
Qed.

Lemma forallb_class (f : ascii -> bool) (set : list ascii) (s : list ascii) :
  (forall c, f c = existsb (Ascii.eqb c) set) ->
  forallb f s = true <-> Forall (fun c => In c set) s.
Proof.
  intros Hf. rewrite forallb_forall, List.Forall_forall. split.
  - intros H c Hin. apply existsb_eqb_In. rewrite <- Hf. auto.
  - intros H c Hin. rewrite Hf. apply existsb_eqb_In. auto.
Qed.

Lemma is_valid_password_iff p :
  is_valid_password p = true <->
  (exists c, In c (chars p) /\ In c decimal_digits) /\
  (exists c, In c (chars p) /\ In c special_set).
Proof.
  unfold is_valid_password. fold (chars p).
  rewrite !ReFacts.search_Class.
  rewrite <- (existsb_class digit_class decimal_digits) by apply digit_class_enum.
  rewrite <- (existsb_class special_class special_set) by apply special_class_enum.
  destruct (existsb digit_class (chars p)), (existsb special_class (chars p));
    simpl; intuition discriminate.
Qed.

Lemma pattern_lang p : Re.lang pattern p <-> email_shape p.
Proof.
  unfold pattern, email_shape. split.
  - intros H.
    apply ReFacts.lang_Seq_inv in H as (loc & r1 & -> & Hloc & H).
    apply ReFacts.lang_Seq_inv in H as (at_ & r2 & -> & Hat & H).
    apply ReFacts.lang_Seq_inv in H as (dom & r3 & -> & Hdom & H).
    apply ReFacts.lang_Seq_inv in H as (dot & tld & -> & Hdot & Htld).
    apply ReFacts.lang_Lit in Hat, Hdot. subst at_ dot.
    apply ReFacts.lang_Plus_Class in Hloc as [Hl1 Hl2], Hdom as [Hd1 Hd2].
    apply ReFacts.lang_AtLeast_Class in Htld as [Ht1 Ht2].
    exists loc, dom, tld. repeat split; auto.
    + apply (forallb_class local_class); auto using local_class_enum.
    + apply (forallb_class domain_class); auto using domain_class_enum.
    + apply (forallb_class letter_class); auto using letter_class_enum.
  - intros (loc & dom & tld & -> & Hl1 & Hl2 & Hd1 & Hd2 & Ht1 & Ht2).
    constructor.
    { apply ReFacts.lang_Plus_Class. split; auto.
      apply (forallb_class local_class local_set); auto using local_class_enum. }
    change ("@"%char :: dom ++ "."%char :: tld)
      with (["@"%char] ++ dom ++ ["."%char] ++ tld).
    constructor; [apply ReFacts.lang_Lit; reflexivity|].
    constructor.
    { apply ReFacts.lang_Plus_Class. split; auto.
      apply (forallb_class domain_class domain_set); auto using domain_class_enum. }
    constructor; [apply ReFacts.lang_Lit; reflexivity|].
    apply ReFacts.lang_AtLeast_Class. split; auto.
    apply (forallb_class letter_class letters); auto using letter_class_enum.
Qed.

Lemma is_valid_email_iff s :
  is_valid_email s = true <-> exists p q, chars s = p ++ q /\ email_shape p.
Proof.
  unfold is_valid_email. fold (chars s).
  destruct (Re.match_ pattern (chars s)) eqn:Hm.
  - apply ReFacts.match_prefix in Hm as (p & q & Heq & Hl).
    split; auto. intros _. exists p, q. split; auto. apply pattern_lang; auto.
  - split; [discriminate|]. intros (p & q & Heq & Hs).
    rewrite <- Hm. apply ReFacts.match_prefix. exists p, q. split; auto.
    apply pattern_lang; auto.
Qed.

End Validators.

(** C5. For every string [p], [is_valid_password p] is true if and only if
    [p] contains at least one decimal digit and at least one character of
    the special set; the empty string is invalid; nothing is asked of the
    length or of letters: the two-character password [1!] is valid. *)
Theorem is_valid_password_spec :
  (forall p : string,
     is_valid_password p = true <->
     (exists c, In c (chars p) /\ In c decimal_digits) /\
     (exists c, In c (chars p) /\ In c special_set))
  /\ is_valid_password "" = false
  /\ is_valid_password "1!" = true.
Proof.
  split; [exact is_valid_password_iff|]. split; reflexivity.
Qed.

(** C6. For every string [s], [is_valid_email s] is true if and only if some
    prefix of [s] has the shape: one-or-more characters of [a-zA-Z0-9._%+-],
    [@], one-or-more characters of [a-zA-Z0-9.-], a dot, two-or-more
    letters. There is no end anchor: a valid string followed by anything
    is valid. The empty string is invalid. *)
Theorem is_valid_email_spec :
  (forall s : string,
     is_valid_email s = true <-> exists p q, chars s = p ++ q /\ email_shape p)
  /\ (forall s garbage : string,
        is_valid_email s = true -> is_valid_email (String.append s garbage) = true)
  /\ is_valid_email "" = false.
Proof.
  split; [exact is_valid_email_iff|]. split; [|reflexivity].
  intros s garbage Hs. apply is_valid_email_iff in Hs as (p & q & Heq & Hp).
  apply is_valid_email_iff. exists p, (q ++ chars garbage). split; auto.
  rewrite chars_append, Heq, <- app_assoc. reflexivity.
Qed.

Lemma is_valid_email_spec_witness : is_valid_email "a@b.com<script>" = true.
Proof.
  apply (proj1 (proj2 is_valid_email_spec) "a@b.com" "<script>").
  vm_compute. reflexivity.
Defined.

(** ** The account service *)

Section Records.

Lemma record_of_None email t :
  record_of email t = None <-> forall r, In r t -> Users.email r <> email.
Proof.
  unfold record_of. induction t as [|a t IH]; simpl.
  - split; [intros _ r [] | reflexivity].
  - unfold email_is at 1. destruct (String.eqb (Users.email a) email) eqn:Ha.
    + apply String.eqb_eq in Ha. split; [discriminate|].
      intros H. exfalso. apply (H a); auto.
    + apply String.eqb_neq in Ha. rewrite IH. split.
      * intros H r [<- | Hin]; auto.
      * intros H r Hin. apply H; auto.
Qed.

Lemma record_of_Some email t r :
  record_of email t = Some r -> In r t /\ Users.email r = email.
Proof.
  unfold record_of. intros H. apply find_some in H as [Hin He].
  split; auto. apply String.eqb_eq; auto.
Qed.

Lemma record_of_app email t1 t2 :
  record_of email (t1 ++ t2) =
  match record_of email t1 with
  | Some r => Some r
  | None => record_of email t2
  end.
Proof.
  unfold record_of. induction t1 as [|a t1 IH]; simpl; auto.
  destruct (email_is email a); auto.
Qed.

(** An update that keeps [email] changes the matching record and no other. *)
Lemma record_of_updated f email e t :
  (forall r, Users.email (f r) = Users.email r) ->
  record_of e (updated f email t) =
  if String.eqb e email then option_map f (record_of e t) else record_of e t.
Proof.
  intros Hf. unfold record_of, updated.
  assert (Hk : forall x r, email_is x (f r) = email_is x r).
  { intros x r. unfold email_is. rewrite Hf. reflexivity. }
  induction t as [|a t IH]; simpl.
  - destruct (String.eqb e email); reflexivity.
  - destruct (String.eqb_spec e email) as [-> | Hne].
    + destruct (email_is email a) eqn:Ha.
      * rewrite Hk, Ha. reflexivity.
      * rewrite Ha. exact IH.
    + destruct (email_is email a) eqn:Ha.
      * assert (Hb : email_is e a = false).
        { unfold email_is in *. apply String.eqb_eq in Ha.
          apply String.eqb_neq. congruence. }
        rewrite Hk, Hb. exact IH.
      * destruct (email_is e a); [reflexivity | exact IH].
Qed.

End Records.

(** C1. [register_user] checks the email format, then the password
    complexity, then uniqueness, and answers with the message of the first
    check that fails, leaving the world as it was; when all three pass it
    appends one record with the given email, [password = hash_password
    password], [is_active = false], [activation_date = NULL], and returns
    (true, Registration successful). *)
Theorem register_user_check_order :
  (forall w db_path email password,
     is_valid_email email = false ->
     register_user db_path email password w
     = (Value (false, "Invalid email format"), w))
  /\ (forall w db_path email password,
        is_valid_email email = true ->
        is_valid_password password = false ->
        register_user db_path email password w
        = (Value (false, "Password should contain at least one digit and one special character."), w))
  /\ (forall w db_path email password t,
        tables w !! db_path = Some t ->
        is_valid_email email = true ->
        is_valid_password password = true ->
        (exists r, In r t /\ Users.email r = email) ->
        register_user db_path email password w
        = (Value (false, "Email already registered"), w))
  /\ (forall w db_path email password t,
        tables w !! db_path = Some t ->
        is_valid_email email = true ->
        is_valid_password password = true ->
        (forall r, In r t -> Users.email r <> email) ->
        exists new,
          register_user db_path email password w
          = (Value (true, "Registration successful"),
             set_tables (<[db_path := t ++ [new]]> (tables w)) w)
          /\ Users.email new = email
          /\ Users.password new = hash_password password
          /\ Users.is_active new = false
          /\ Users.activation_date new = None).
Proof.
  repeat split.
  - intros w db_path email password He. unfold register_user. rewrite He. reflexivity.
  - intros w db_path email password He Hp. unfold register_user.
    rewrite He, Hp. reflexivity.
  - intros w db_path email password t Htab He Hp (r & Hin & Hr).
    rewrite (register_user_eq _ _ _ Htab), He, Hp. simpl.
    fold (record_of email t).
    destruct (record_of email t) eqn:Hrec; [reflexivity|].
    exfalso. apply (proj1 (record_of_None _ _) Hrec r); auto.
  - intros w db_path email password t Htab He Hp Hnone.
    rewrite (register_user_eq _ _ _ Htab), He, Hp. simpl.
    fold (record_of email t). rewrite (proj2 (record_of_None _ _) Hnone).
    eexists. split; [reflexivity|]. simpl. auto.
Qed.

Lemma register_user_check_order_witness :
  register_user "tests.db" "invalidemail" "Password123!" created_world
  = (Value (false, "Invalid email format"), created_world)
  /\ register_user "tests.db" "newuser@example.com" "password" created_world
     = (Value (false, "Password should contain at least one digit and one special character."),
        created_world)
  /\ register_user "tests.db" "resetuser@example.com" "Password123!" registered_world
     = (Value (false, "Email already registered"), registered_world)
  /\ fst (register_user "tests.db" "newuser@example.com" "Password123!" created_world)
     = Value (true, "Registration successful").
Proof.
  destruct register_user_check_order as (H1 & H2 & H3 & H4).
  split; [|split; [|split]].
  - apply H1. vm_compute. reflexivity.
  - apply H2; vm_compute; reflexivity.
  - apply (H3 registered_world "tests.db" "resetuser@example.com" "Password123!"
              [Users.Row 1 "resetuser@example.com"
                 (hash_password "OldPassword123!") false (Some 0%Z) None]).
    + vm_compute. reflexivity.
    + vm_compute. reflexivity.
    + vm_compute. reflexivity.
    + eexists. split; [left; reflexivity | reflexivity].
  - destruct (H4 created_world "tests.db" "newuser@example.com" "Password123!" [])
      as (new & Heq & _).
    + vm_compute. reflexivity.
    + vm_compute. reflexivity.
    + vm_compute. reflexivity.
    + intros r [].
    + rewrite Heq. reflexivity.
Defined.

(** C2. With the [users] table in place, [authenticate_user] returns
    (false, Invalid credentials or account not activated), the one message
    for all three causes, if and only if no record matches the email, or the
    stored hash differs from [hash_password password], or [is_active] is
    false; in every other case it returns (true, Authentication successful). *)
Theorem authenticate_user_uniform_failure
    (w : world) (db_path email password : string) (t : list Users.row)
    (Htab : tables w !! db_path = Some t) :
  let failing :=
    record_of email t = None
    \/ exists r, record_of email t = Some r
                 /\ (Users.password r <> hash_password password
                     \/ Users.is_active r = false) in
  (fst (authenticate_user db_path email password w)
   = Value (false, "Invalid credentials or account not activated") <-> failing)
  /\ (~ failing ->
      fst (authenticate_user db_path email password w)
      = Value (true, "Authentication successful")).
Proof.
  intros failing. unfold failing.
  rewrite (authenticate_user_eq _ _ _ Htab). fold (record_of email t).
  destruct (record_of email t) as [r|] eqn:Hrec.
  - destruct (String.eqb_spec (hash_password password) (Users.password r)) as [Hh | Hh];
      destruct (Users.is_active r) eqn:Ha; simpl.
    + split.
      * split; [discriminate|].
        intros [Hn | (r' & [= <-] & [Hp | Hi])]; congruence.
      * reflexivity.
    + split.
      * split; auto. intros _. right. exists r. auto.
      * intros Hn. exfalso. apply Hn. right. exists r. auto.
    + split.
      * split; auto. intros _. right. exists r. split; auto.
      * intros Hn. exfalso. apply Hn. right. exists r. split; auto.
    + split.
      * split; auto. intros _. right. exists r. auto.
      * intros Hn. exfalso. apply Hn. right. exists r. auto.
  - simpl. split.
    + split; auto.
    + intros Hn. exfalso. apply Hn. auto.
Qed.

Lemma authenticate_user_uniform_failure_witness :
  fst (authenticate_user "tests.db" "resetuser@example.com" "OldPassword123!"
         registered_world)
  = Value (false, "Invalid credentials or account not activated").
Proof.
  apply (authenticate_user_uniform_failure registered_world "tests.db"
           "resetuser@example.com" "OldPassword123!"
           [Users.Row 1 "resetuser@example.com"
              (hash_password "OldPassword123!") false (Some 0%Z) None]).
  - vm_compute. reflexivity.
  - right. eexists. split; [vm_compute; reflexivity | right; reflexivity].
Defined.

(** C3. [reset_password] checks the password complexity before it looks the
    user up: an invalid new password gets the complexity message for every
    email, registered or not; a valid one gets (false, User not found) when
    no record matches; otherwise the result is (true, Password reset
    successfully) and, in the table stored, the [password] of the matching
    record is [hash_password new_password], its other columns are as they
    were, the records of other emails are as they were, and no row is added
    or removed. *)
Theorem reset_password_check_order :
  (forall w db_path email new_password,
     is_valid_password new_password = false ->
     reset_password db_path email new_password w
     = (Value (false, "Password should contain at least one digit and one special character."), w))
  /\ (forall w db_path email new_password t,
        tables w !! db_path = Some t ->
        is_valid_password new_password = true ->
        record_of email t = None ->
        reset_password db_path email new_password w
        = (Value (false, "User not found"), w))
  /\ (forall w db_path email new_password t r,
        tables w !! db_path = Some t ->
        is_valid_password new_password = true ->
        record_of email t = Some r ->
        exists t' r',
          reset_password db_path email new_password w
          = (Value (true, "Password reset successfully"),
             set_tables (<[db_path := t']> (tables w)) w)
          /\ record_of email t' = Some r'
          /\ Users.password r' = hash_password new_password
          /\ Users.id r' = Users.id r
          /\ Users.email r' = Users.email r
          /\ Users.is_active r' = Users.is_active r
          /\ Users.registration_date r' = Users.registration_date r
          /\ Users.activation_date r' = Users.activation_date r
          /\ (forall e, e <> email -> record_of e t' = record_of e t)
          /\ length t' = length t).
Proof.
  split; [|split].
  - intros w db_path email new_password Hp. unfold reset_password.
    rewrite Hp. reflexivity.
  - intros w db_path email new_password t Htab Hp Hrec.
    rewrite (reset_password_eq _ _ _ Htab), Hp. simpl.
    fold (record_of email t). rewrite Hrec. reflexivity.
  - intros w db_path email new_password t r Htab Hp Hrec.
    rewrite (reset_password_eq _ _ _ Htab), Hp. simpl.
    fold (record_of email t). rewrite Hrec.
    exists (updated (set_password (hash_password new_password)) email t).
    exists (set_password (hash_password new_password) r).
    split; [reflexivity|]. split.
    { rewrite record_of_updated by reflexivity.
      rewrite String.eqb_refl, Hrec. reflexivity. }
    do 6 (split; [reflexivity|]). split.
    + intros e He. rewrite record_of_updated by reflexivity.
      apply String.eqb_neq in He. rewrite He. reflexivity.
    + unfold updated. apply length_map.
Qed.

Lemma reset_password_check_order_witness :
  reset_password "tests.db" "nonexistent@example.com" "newpassword" activated_world
  = (Value (false, "Password should contain at least one digit and one special character."),
     activated_world)
  /\ reset_password "tests.db" "nonexistent@example.com" "NewPassword123!" activated_world
     = (Value (false, "User not found"), activated_world)
  /\ (fst (reset_password "tests.db" "resetuser@example.com" "NewPassword123!"
             activated_world)
      = Value (true, "Password reset successfully")
      /\ exists t' r',
           tables (snd (reset_password "tests.db" "resetuser@example.com"
                          "NewPassword123!" activated_world)) !! "tests.db" = Some t'
           /\ record_of "resetuser@example.com" t' = Some r'
           /\ Users.password r' = hash_password "NewPassword123!"
           /\ Users.is_active r' = true
           /\ Users.activation_date r' = Some 0%Z).
Proof.
  destruct reset_password_check_order as (H1 & H2 & H3).
  split; [|split].
  - apply H1. vm_compute. reflexivity.
  - apply (H2 activated_world "tests.db" "nonexistent@example.com" "NewPassword123!"
              [Users.Row 1 "resetuser@example.com"
                 (hash_password "OldPassword123!") true (Some 0%Z) (Some 0%Z)]);
      vm_compute; reflexivity.
  - destruct (H3 activated_world "tests.db" "resetuser@example.com" "NewPassword123!"
                 [Users.Row 1 "resetuser@example.com"
                    (hash_password "OldPassword123!") true (Some 0%Z) (Some 0%Z)]
                 (Users.Row 1 "resetuser@example.com"
                    (hash_password "OldPassword123!") true (Some 0%Z) (Some 0%Z)))
      as (t' & r' & Heq & Hrec & Hpw & _ & _ & Hact & _ & Hdate & _).
    + vm_compute. reflexivity.
    + vm_compute. reflexivity.
    + vm_compute. reflexivity.
    + rewrite Heq. split; [reflexivity|].
      exists t', r'. split; [cbn [snd set_tables tables]; apply lookup_insert_eq|].
      repeat split; assumption.
Defined.

(** ** Failure paths *)

Section Failure.

Variable w : world.

Lemma register_user_false db_path email password msg w' :
  register_user db_path email password w = (Value (false, msg), w') -> w' = w.
Proof.
  intros H. destruct (tables w !! db_path) as [t|] eqn:Htab.
  - rewrite (register_user_eq _ _ _ Htab) in H.
    destruct (negb (is_valid_email email)); [congruence|].
    destruct (negb (is_valid_password password)); [congruence|].
    destruct (find (email_is email) t); congruence.
  - destruct (register_user_no_table _ _ Htab email password) as [_ Hv].
    rewrite H in Hv. destruct (Hv _ eq_refl) as [Hw _]. exact Hw.
Qed.

Lemma activate_user_false db_path email msg w' :
  activate_user db_path email w = (Value (false, msg), w') -> w' = w.
Proof.
  intros H. destruct (tables w !! db_path) as [t|] eqn:Htab.
  - rewrite (activate_user_eq _ _ _ Htab) in H.
    destruct (find (email_is email) t); congruence.
  - destruct (activate_user_no_table _ _ Htab email) as [_ Hv].
    rewrite H in Hv. discriminate.
Qed.

Lemma authenticate_user_false db_path email password msg w' :
  authenticate_user db_path email password w = (Value (false, msg), w') -> w' = w.
Proof.
  intros H. destruct (tables w !! db_path) as [t|] eqn:Htab.
  - rewrite (authenticate_user_eq _ _ _ Htab) in H.
    destruct (find (email_is email) t) as [r|]; [|congruence].
    destruct (String.eqb (hash_password password) (Users.password r)
              && Users.is_active r); congruence.
  - destruct (authenticate_user_no_table _ _ Htab email password) as [_ Hv].
    rewrite H in Hv. discriminate.
Qed.

Lemma reset_password_false db_path email new_password msg w' :
  reset_password db_path email new_password w = (Value (false, msg), w') -> w' = w.
Proof.
  intros H. destruct (tables w !! db_path) as [t|] eqn:Htab.
  - rewrite (reset_password_eq _ _ _ Htab) in H.
    destruct (negb (is_valid_password new_password)); [congruence|].
    destruct (find (email_is email) t); congruence.
  - destruct (reset_password_no_table _ _ Htab email new_password) as [_ Hv].
    rewrite H in Hv. destruct (Hv _ eq_refl) as [Hw _]. exact Hw.
Qed.

End Failure.

(** C10. Failure is atomic: whenever [register_user], [activate_user],
    [authenticate_user] or [reset_password] returns a false flag, the
    [users] tables after the call are the tables before the call. *)
Theorem failure_is_atomic (c : call) (w w' : world) (msg : string) :
  run c w = (Value (false, msg), w') -> tables w' = tables w.
Proof.
  intros H. destruct c; simpl in H.
  - apply register_user_false in H. congruence.
  - apply activate_user_false in H. congruence.
  - apply authenticate_user_false in H. congruence.
  - apply reset_password_false in H. congruence.
Qed.

Lemma failure_is_atomic_witness :
  tables (snd (run (RegisterUser "tests.db" "resetuser@example.com" "Password123!")
                   registered_world))
  = tables registered_world.
Proof.
  apply (failure_is_atomic
           (RegisterUser "tests.db" "resetuser@example.com" "Password123!")
           registered_world _ "Email already registered").
  vm_compute. reflexivity.
Defined.

(** ** The activation invariant *)

Section Invariant.

Lemma consistent_new i email hashed now :
  activation_consistent (Users.Row i email hashed false now None).
Proof. unfold activation_consistent; simpl. split; congruence. Qed.

Lemma consistent_set_activation now r : activation_consistent (set_activation now r).
Proof. unfold activation_consistent; simpl. split; congruence. Qed.

Lemma consistent_set_password hashed r :
  activation_consistent r -> activation_consistent (set_password hashed r).
Proof. unfold activation_consistent; simpl. auto. Qed.

Lemma consistent_updated f email t :
  (forall r, activation_consistent r -> activation_consistent (f r)) ->
  (forall r, In r t -> activation_consistent r) ->
  forall r, In r (updated f email t) -> activation_consistent r.
Proof.
  intros Hf Ht r Hin. unfold updated in Hin.
  apply in_map_iff in Hin as (x & <- & Hx).
  destruct (email_is email x); auto.
Qed.

(** Storing a consistent table keeps the invariant. *)
Lemma consistent_store w db_path t' :
  tables_consistent w ->
  (forall r, In r t' -> activation_consistent r) ->
  tables_consistent (set_tables (<[db_path := t']> (tables w)) w).
Proof.
  intros Hw Ht' p t r Hp Hin. simpl in Hp.
  destruct (decide (db_path = p)) as [-> | Hne].
  - rewrite lookup_insert_eq in Hp. injection Hp as <-. auto.
  - rewrite lookup_insert_ne in Hp by exact Hne. eauto.
Qed.

Lemma consistent_same_tables w w' :
  tables w' = tables w -> tables_consistent w -> tables_consistent w'.
Proof. unfold tables_consistent. intros ->. auto. Qed.

Lemma run_consistent c w :
  tables_consistent w -> tables_consistent (snd (run c w)).
Proof.
  intros Hw. destruct c; simpl;
    destruct (tables w !! db_path) as [t|] eqn:Htab.
  - rewrite (register_user_eq _ _ _ Htab).
    destruct (negb (is_valid_email email)); [exact Hw|].
    destruct (negb (is_valid_password password)); [exact Hw|].
    destruct (find (email_is email) t); [exact Hw|]. simpl.
    apply consistent_store; auto.
    intros r Hin. apply in_app_or in Hin as [Hin | [<- | []]]; [eauto|].
    apply consistent_new.
  - eapply consistent_same_tables; [|exact Hw].
    apply register_user_no_table; auto.
  - rewrite (activate_user_eq _ _ _ Htab).
    destruct (find (email_is email) t); [|exact Hw]. simpl.
    apply consistent_store; auto.
    apply consistent_updated; [|eauto].
    intros x _. apply consistent_set_activation.
  - eapply consistent_same_tables; [|exact Hw].
    apply activate_user_no_table; auto.
  - rewrite (authenticate_user_eq _ _ _ Htab).
    destruct (find (email_is email) t) as [r|]; [|exact Hw].
    destruct (String.eqb (hash_password password) (Users.password r)
              && Users.is_active r); [|exact Hw].
    eapply consistent_same_tables; [|exact Hw]. reflexivity.
  - eapply consistent_same_tables; [|exact Hw].
    apply authenticate_user_no_table; auto.
  - rewrite (reset_password_eq _ _ _ Htab).
    destruct (negb (is_valid_password new_password)); [exact Hw|].
    destruct (find (email_is email) t); [|exact Hw]. simpl.
    apply consistent_store; auto.
    apply consistent_updated; [|eauto].
    intros x. apply consistent_set_password.
  - eapply consistent_same_tables; [|exact Hw].
    apply reset_password_no_table; auto.
Qed.

Lemma step_consistent w w' :
  step w w' -> tables_consistent w -> tables_consistent w'.
Proof.
  intros [c w1 | now w1] Hw.
  - apply run_consistent; auto.
  - exact Hw.
Qed.

Lemma empty_tables_consistent w : empty_tables w -> tables_consistent w.
Proof.
  intros He p t r Hp Hin. apply He in Hp. subst t. destruct Hin.
Qed.

End Invariant.

(** C4. In every state reachable from empty tables by any sequence of
    [register_user], [activate_user], [authenticate_user] and
    [reset_password] calls, every user record has [activation_date]
    non-null if and only if [is_active] is true. *)
Theorem activation_date_iff_is_active
    (w0 w : world) (db_path : string) (t : list Users.row) (r : Users.row) :
  empty_tables w0 ->
  reachable w0 w ->
  tables w !! db_path = Some t ->
  In r t ->
  (Users.activation_date r <> None <-> Users.is_active r = true).
Proof.
  intros Hempty Hreach. revert db_path t r.
  change (tables_consistent w).
  induction Hreach as [|w w' Hreach IH Hstep].
  - apply empty_tables_consistent; auto.
  - eapply step_consistent; eauto.
Qed.

Lemma created_world_empty : empty_tables created_world.
Proof.
  intros p t H.
  change (tables created_world) with (<["tests.db" := []]> (∅ : gmap string (list Users.row))) in H.
  apply lookup_insert_Some in H as [[_ <-] | [_ H]]; [reflexivity|].
  rewrite lookup_empty in H. discriminate.
Qed.

Lemma activation_date_iff_is_active_witness :
  Some 0%Z <> None <-> true = true.
Proof.
  apply (activation_date_iff_is_active created_world activated_world "tests.db"
           [Users.Row 1 "resetuser@example.com"
              (hash_password "OldPassword123!") true (Some 0%Z) (Some 0%Z)]
           (Users.Row 1 "resetuser@example.com"
              (hash_password "OldPassword123!") true (Some 0%Z) (Some 0%Z))).
  - exact created_world_empty.
  - apply (reachable_step _ registered_world).
    + apply (reachable_step _ created_world).
      * apply reachable_start.
      * apply (step_call (RegisterUser "tests.db" "resetuser@example.com" "OldPassword123!")).
    + apply (step_call (ActivateUser "tests.db" "resetuser@example.com")).
  - vm_compute. reflexivity.
  - left. reflexivity.
Defined.

(** ** Scenarios *)

(** C7, as stated, fails: after a successful registration, a second
    registration of the same email with the password [password], which has
    no digit and no special character, is turned down by the complexity
    check, which comes before the uniqueness check. *)
Lemma register_twice_counterexample :
  tables created_world !! "tests.db" = Some []
  /\ is_valid_email "newuser@example.com" = true
  /\ is_valid_password "Password123!" = true
  /\ record_of "newuser@example.com" [] = None
  /\ fst (register_user "tests.db" "newuser@example.com" "Password123!" created_world)
     = Value (true, "Registration successful")
  /\ fst (register_user "tests.db" "newuser@example.com" "password"
            (snd (register_user "tests.db" "newuser@example.com" "Password123!"
                    created_world)))
     = Value (false, "Password should contain at least one digit and one special character.")
  /\ fst (register_user "tests.db" "newuser@example.com" "password"
            (snd (register_user "tests.db" "newuser@example.com" "Password123!"
                    created_world)))
     <> Value (false, "Email already registered").
Proof.
  repeat split; try (vm_compute; reflexivity).
  vm_compute. discriminate.
Qed.

(** C7, amended. For every valid email [e] that is not registered, valid
    password [p1] and any password [p2]: [register_user e p1] returns
    (true, Registration successful), and [register_user e p2] right after
    returns false, with Email already registered when [p2] passes the
    complexity check and with the complexity message when it does not. *)
Theorem register_twice
    (w : world) (db_path e p1 p2 : string) (t : list Users.row) :
  tables w !! db_path = Some t ->
  is_valid_email e = true ->
  is_valid_password p1 = true ->
  record_of e t = None ->
  exists w1,
    register_user db_path e p1 w = (Value (true, "Registration successful"), w1)
    /\ register_user db_path e p2 w1
       = (Value (false,
                 if is_valid_password p2 then "Email already registered"
                 else "Password should contain at least one digit and one special character."),
          w1).
Proof.
  intros Htab He Hp1 Hrec.
  rewrite (register_user_eq _ _ _ Htab), He, Hp1. simpl.
  fold (record_of e t). rewrite Hrec.
  eexists. split; [reflexivity|].
  erewrite register_user_eq by (simpl; apply lookup_insert_eq).
  rewrite He. simpl. destruct (is_valid_password p2); simpl; [|reflexivity].
  fold (record_of e (t ++ [Users.Row (next_id t) e (hash_password p1) false
                             (Some (current_timestamp w)) None])).
  rewrite record_of_app, Hrec. unfold record_of; simpl.
  unfold email_is; simpl. rewrite String.eqb_refl. reflexivity.
Qed.

Lemma register_twice_witness :
  exists w1,
    register_user "tests.db" "newuser@example.com" "Password123!" created_world
    = (Value (true, "Registration successful"), w1)
    /\ register_user "tests.db" "newuser@example.com" "Other456?" w1
       = (Value (false,
                 if is_valid_password "Other456?" then "Email already registered"
                 else "Password should contain at least one digit and one special character."),
          w1).
Proof.
  apply (register_twice created_world "tests.db" "newuser@example.com"
           "Password123!" "Other456?" []); vm_compute; reflexivity.
Defined.

(** C8, as stated, fails: the account of a registered email that was never
    activated accepts the reset, and the new password still does not
    authenticate. *)
Lemma reset_then_authenticate_counterexample :
  record_of "resetuser@example.com"
    [Users.Row 1 "resetuser@example.com" (hash_password "OldPassword123!")
       false (Some 0%Z) None]
  <> None
  /\ tables registered_world !! "tests.db"
     = Some [Users.Row 1 "resetuser@example.com" (hash_password "OldPassword123!")
               false (Some 0%Z) None]
  /\ "OldPassword123!" <> "NewPassword123!"
  /\ fst (reset_password "tests.db" "resetuser@example.com" "NewPassword123!"
            registered_world)
     = Value (true, "Password reset successfully")
  /\ fst (authenticate_user "tests.db" "resetuser@example.com" "NewPassword123!"
            (snd (reset_password "tests.db" "resetuser@example.com" "NewPassword123!"
                    registered_world)))
     = Value (false, "Invalid credentials or account not activated").
Proof.
  repeat split; try (vm_compute; reflexivity); vm_compute; discriminate.
Qed.

(** C8, amended. For every registered email whose account is activated, and
    passwords [old_pw], [new_pw] with different hashes: whenever
    [reset_password email new_pw] returns true, [authenticate_user email
    old_pw] right after returns false, and [authenticate_user email new_pw]
    after that returns true. *)
Theorem reset_then_authenticate
    (w w1 : world) (db_path email old_pw new_pw msg : string)
    (t : list Users.row) (r : Users.row) :
  tables w !! db_path = Some t ->
  record_of email t = Some r ->
  Users.is_active r = true ->
  hash_password old_pw <> hash_password new_pw ->
  reset_password db_path email new_pw w = (Value (true, msg), w1) ->
  authenticate_user db_path email old_pw w1
  = (Value (false, "Invalid credentials or account not activated"), w1)
  /\ fst (authenticate_user db_path email new_pw w1)
     = Value (true, "Authentication successful").
Proof.
  intros Htab Hrec Hact Hhash Hreset.
  rewrite (reset_password_eq _ _ _ Htab) in Hreset.
  destruct (negb (is_valid_password new_pw)); [discriminate|].
  fold (record_of email t) in Hreset. rewrite Hrec in Hreset.
  injection Hreset as _ <-.
  assert (Htab1 : tables (set_tables
                    (<[db_path := updated (set_password (hash_password new_pw)) email t]>
                       (tables w)) w) !! db_path
                  = Some (updated (set_password (hash_password new_pw)) email t)).
  { simpl. apply lookup_insert_eq. }
  rewrite !(authenticate_user_eq _ _ _ Htab1).
  fold (record_of email (updated (set_password (hash_password new_pw)) email t)).
  rewrite record_of_updated by reflexivity.
  rewrite String.eqb_refl, Hrec. simpl. rewrite Hact, String.eqb_refl. simpl.
  split; [|reflexivity].
  apply String.eqb_neq in Hhash. rewrite Hhash. reflexivity.
Qed.

Lemma reset_then_authenticate_witness :
  authenticate_user "tests.db" "resetuser@example.com" "OldPassword123!"
    (snd (reset_password "tests.db" "resetuser@example.com" "NewPassword123!"
            activated_world))
  = (Value (false, "Invalid credentials or account not activated"),
     snd (reset_password "tests.db" "resetuser@example.com" "NewPassword123!"
            activated_world))
  /\ fst (authenticate_user "tests.db" "resetuser@example.com" "NewPassword123!"
            (snd (reset_password "tests.db" "resetuser@example.com" "NewPassword123!"
                    activated_world)))
     = Value (true, "Authentication successful").
Proof.
  apply (reset_then_authenticate activated_world _ "tests.db" "resetuser@example.com"
           "OldPassword123!" "NewPassword123!" "Password reset successfully"
           [Users.Row 1 "resetuser@example.com" (hash_password "OldPassword123!")
              true (Some 0%Z) (Some 0%Z)]
           (Users.Row 1 "resetuser@example.com" (hash_password "OldPassword123!")
              true (Some 0%Z) (Some 0%Z))).
  - vm_compute. reflexivity.
  - vm_compute. reflexivity.
  - reflexivity.
  - vm_compute. discriminate.
  - vm_compute. reflexivity.
Defined.

(** ** Connections *)

(** X11. Whenever [register_user], [activate_user] or [reset_password]
    returns, and whenever [authenticate_user] returns false, the connections
    open after the call are those open before it: the connection the call
    opened has been closed. *)
Lemma connection_closed c w r w' :
  run c w = (Value r, w') ->
  (forall db_path email password,
     c = AuthenticateUser db_path email password -> fst r = false) ->
  connections w' = connections w.
Proof.
  intros H Hauth. destruct c; simpl in H;
    destruct (tables w !! db_path) as [t|] eqn:Htab.
  - rewrite (register_user_eq _ _ _ Htab) in H.
    destruct (negb (is_valid_email email)); [congruence|].
    destruct (negb (is_valid_password password)); [congruence|].
    destruct (find (email_is email) t); injection H as _ <-; reflexivity.
  - destruct (register_user_no_table _ _ Htab email password) as [_ Hv].
    rewrite H in Hv. destruct (Hv _ eq_refl) as [Hw _]. simpl in Hw. congruence.
  - rewrite (activate_user_eq _ _ _ Htab) in H.
    destruct (find (email_is email) t); injection H as _ <-; reflexivity.
  - destruct (activate_user_no_table _ _ Htab email) as [_ Hv].
    rewrite H in Hv. discriminate.
  - rewrite (authenticate_user_eq _ _ _ Htab) in H.
    destruct (find (email_is email) t) as [x|]; [|congruence].
    destruct (String.eqb (hash_password password) (Users.password x)
              && Users.is_active x); [|congruence].
    injection H as <- _. specialize (Hauth _ _ _ eq_refl). discriminate.
  - destruct (authenticate_user_no_table _ _ Htab email password) as [_ Hv].
    rewrite H in Hv. discriminate.
  - rewrite (reset_password_eq _ _ _ Htab) in H.
    destruct (negb (is_valid_password new_password)); [congruence|].
    destruct (find (email_is email) t); injection H as _ <-; reflexivity.
  - destruct (reset_password_no_table _ _ Htab email new_password) as [_ Hv].
    rewrite H in Hv. destruct (Hv _ eq_refl) as [Hw _]. simpl in Hw. congruence.
Qed.

(** C9 fails on the success path of [authenticate_user]: it returns without
    [conn.close()]. In the tests' scenario no connection is open before the
    call, and handle 0 on [tests.db] is still open after it. *)
Theorem authenticate_user_success_leaves_connection_open :
  connections activated_world = ∅
  /\ fst (authenticate_user "tests.db" "resetuser@example.com" "OldPassword123!"
            activated_world)
     = Value (true, "Authentication successful")
  /\ connections
       (snd (authenticate_user "tests.db" "resetuser@example.com" "OldPassword123!"
               activated_world))
     = {[ 0%nat := Conn "tests.db" None ]}.
Proof.
  repeat split; vm_compute; reflexivity.
Qed.

(** ** Schema manager *)

(** X1. Where the [users] table exists at [db_path], [create_database]
    returns without raising and leaves the world as it was: the table and
    its rows are kept ([CREATE TABLE IF NOT EXISTS]), nothing is stored, and
    the connection it opened is closed. *)
Theorem create_database_keeps_table
    (w : world) (db_path : string) (t : list Users.row) :
  tables w !! db_path = Some t ->
  create_database db_path w = (Value tt, w).
Proof.
  intros Htab.
  unfold create_database, bind, connect, create_table_if_not_exists, visible; simpl.
  rewrite lookup_insert_eq; simpl. rewrite Htab.
  unfold commit; simpl. rewrite lookup_insert_eq; simpl.
  unfold close. simpl. rewrite close_fresh. reflexivity.
Qed.

Lemma create_database_keeps_table_witness :
  create_database "tests.db" activated_world = (Value tt, activated_world)
  /\ tables activated_world !! "tests.db"
     = Some [Users.Row 1 "resetuser@example.com" (hash_password "OldPassword123!")
               true (Some 0%Z) (Some 0%Z)].
Proof.
  split.
  - apply (create_database_keeps_table activated_world "tests.db"
             [Users.Row 1 "resetuser@example.com" (hash_password "OldPassword123!")
                true (Some 0%Z) (Some 0%Z)]).
    vm_compute. reflexivity.
  - vm_compute. reflexivity.
Defined.

(** ** What a call does to the tables *)

(** A call leaves the tables alone or replaces the table at its path by the
    result of one write for its email. *)
Lemma run_tables c w :
  tables (snd (run c w)) = tables w
  \/ exists t t',
       tables w !! call_path c = Some t
       /\ tables (snd (run c w)) = <[call_path c := t']> (tables w)
       /\ table_change (call_email c) t t'.
Proof.
  destruct c; simpl; destruct (tables w !! db_path) as [t|] eqn:Htab.
  - rewrite (register_user_eq _ _ _ Htab).
    destruct (negb (is_valid_email email)); [left; reflexivity|].
    destruct (negb (is_valid_password password)); [left; reflexivity|].
    destruct (find (email_is email) t) eqn:Hf; [left; reflexivity|].
    right. exists t. eexists. split; [reflexivity|]. split; [reflexivity|].
    apply change_insert. exact Hf.
  - left. apply register_user_no_table; auto.
  - rewrite (activate_user_eq _ _ _ Htab).
    destruct (find (email_is email) t); [|left; reflexivity].
    right. exists t. eexists. split; [reflexivity|]. split; [reflexivity|].
    apply change_activate.
  - left. apply activate_user_no_table; auto.
  - left. rewrite (authenticate_user_eq _ _ _ Htab).
    destruct (find (email_is email) t) as [x|]; [|reflexivity].
    destruct (String.eqb (hash_password password) (Users.password x)
              && Users.is_active x); reflexivity.
  - left. apply authenticate_user_no_table; auto.
  - rewrite (reset_password_eq _ _ _ Htab).
    destruct (negb (is_valid_password new_password)); [left; reflexivity|].
    destruct (find (email_is email) t); [|left; reflexivity].
    right. exists t. eexists. split; [reflexivity|]. split; [reflexivity|].
    apply change_password.
  - left. apply reset_password_no_table; auto.
Qed.

Section TableChange.

Variables (email : string) (t t' : list Users.row).
Hypothesis Hchange : table_change email t t'.







(** A record, once there, stays, with its email, id and registration date;
    once active it stays active. *)
Lemma change_keeps_record e r :
  record_of e t = Some r ->
  exists r',
    record_of e t' = Some r'
    /\ Users.email r' = Users.email r
    /\ Users.id r' = Users.id r
    /\ Users.registration_date r' = Users.registration_date r
    /\ (Users.is_active r = true -> Users.is_active r' = true).
Proof.
  intros Hrec. destruct Hchange as [hashed now l Hnone | now l | hashed l].
  - exists r. rewrite record_of_app, Hrec. auto.
  - rewrite record_of_updated by reflexivity. rewrite Hrec. simpl.
    destruct (String.eqb e email); eexists; (split; [reflexivity|]); simpl; auto.
  - rewrite record_of_updated by reflexivity. rewrite Hrec. simpl.
    destruct (String.eqb e email); eexists; (split; [reflexivity|]); simpl; auto.
Qed.

(** Records of other emails are not touched. *)
Lemma change_other_email e :
  e <> email -> record_of e t' = record_of e t.
Proof.
  intros Hne. destruct Hchange as [hashed now l Hnone | now l | hashed l].
  - rewrite record_of_app. destruct (record_of e l); [reflexivity|].
    unfold record_of; simpl. unfold email_is; simpl.
    apply String.eqb_neq in Hne. rewrite String.eqb_sym, Hne. reflexivity.
  - rewrite record_of_updated by reflexivity.
    apply String.eqb_neq in Hne. rewrite Hne. reflexivity.
  - rewrite record_of_updated by reflexivity.
    apply String.eqb_neq in Hne. rewrite Hne. reflexivity.
Qed.

End TableChange.






(** X4. Nothing is ever deleted or renamed, and activation is never undone:
    a record present in a world is present in every world reachable from
    it, with the same email, id and registration date, and active if it
    was active. *)
Theorem record_persists
    (w w' : world) (db_path email : string) (t : list Users.row) (r : Users.row) :
  reachable w w' ->
  tables w !! db_path = Some t ->
  record_of email t = Some r ->
  exists t' r',
    tables w' !! db_path = Some t'
    /\ record_of email t' = Some r'
    /\ Users.email r' = Users.email r
    /\ Users.id r' = Users.id r
    /\ Users.registration_date r' = Users.registration_date r
    /\ (Users.is_active r = true -> Users.is_active r' = true).
Proof.
  intros Hreach Htab Hrec.
  induction Hreach as [|w1 w2 Hreach IH Hstep].
  - exists t, r. repeat split; auto.
  - destruct IH as (t1 & r1 & Ht1 & Hr1 & He & Hi & Hd & Ha).
    destruct Hstep as [c w3 | now w3]; [|exists t1, r1; repeat split; auto].
    destruct (run_tables c w3) as [Hsame | (t0 & t2 & Ht0 & Hnew & Hch)].
    + exists t1, r1. rewrite Hsame. repeat split; auto.
    + rewrite Hnew. destruct (decide (call_path c = db_path)) as [Heq | Hne].
      * rewrite Heq in *. rewrite Ht1 in Ht0. injection Ht0 as <-.
        destruct (change_keeps_record _ _ _ Hch _ _ Hr1)
          as (r2 & Hr2 & He2 & Hi2 & Hd2 & Ha2).
        exists t2, r2. rewrite lookup_insert_eq.
        repeat split; auto; congruence.
      * exists t1, r1. rewrite lookup_insert_ne by exact Hne. repeat split; auto.
Qed.

Lemma record_persists_witness :
  exists t' r',
    tables activated_world !! "tests.db" = Some t'
    /\ record_of "resetuser@example.com" t' = Some r'
    /\ Users.email r' = "resetuser@example.com"
    /\ Users.id r' = 1%Z
    /\ Users.registration_date r' = Some 0%Z
    /\ (false = true -> Users.is_active r' = true).
Proof.
  apply (record_persists registered_world activated_world "tests.db"
           "resetuser@example.com"
           [Users.Row 1 "resetuser@example.com" (hash_password "OldPassword123!")
              false (Some 0%Z) None]
           (Users.Row 1 "resetuser@example.com" (hash_password "OldPassword123!")
              false (Some 0%Z) None)).
  - apply (reachable_step _ registered_world).
    + apply reachable_start.
    + apply (step_call (ActivateUser "tests.db" "resetuser@example.com")).
  - vm_compute. reflexivity.
  - vm_compute. reflexivity.
Defined.

(** X5. A call touches only the record of its own email: in the table at
    the call's path the record of every other email is the same after the
    call as before it. *)
Theorem call_frame (c : call) (w : world) (t : list Users.row) (e : string) :
  tables w !! call_path c = Some t ->
  e <> call_email c ->
  exists t',
    tables (snd (run c w)) !! call_path c = Some t'
    /\ record_of e t' = record_of e t.
Proof.
  intros Ht He.
  destruct (run_tables c w) as [Hsame | (t0 & t1 & Ht0 & Hnew & Hch)].
  - rewrite Hsame. exists t. auto.
  - rewrite Hnew. rewrite Ht in Ht0. injection Ht0 as <-.
    exists t1. rewrite lookup_insert_eq. split; [reflexivity|].
    apply change_other_email with (email := call_email c); auto.
Qed.

Lemma call_frame_witness :
  exists t',
    tables (snd (run (ResetPassword "tests.db" "resetuser@example.com" "NewPassword123!")
                     (snd (register_user "tests.db" "newuser@example.com" "Password123!"
                             activated_world)))) !! "tests.db" = Some t'
    /\ record_of "newuser@example.com" t'
       = record_of "newuser@example.com"
           [Users.Row 1 "resetuser@example.com" (hash_password "OldPassword123!")
              true (Some 0%Z) (Some 0%Z);
            Users.Row 2 "newuser@example.com" (hash_password "Password123!")
              false (Some 0%Z) None].
Proof.
  apply (call_frame (ResetPassword "tests.db" "resetuser@example.com" "NewPassword123!")
           (snd (register_user "tests.db" "newuser@example.com" "Password123!"
                   activated_world))).
  - vm_compute. reflexivity.
  - vm_compute. discriminate.
Defined.

(** ** Activation and the life of an account *)

(** X6. [activate_user] on an email with no record returns (false, User not
    found) and changes nothing; on an email with a record, active already
    or not, it returns (true, User activated) and, in the table stored, that
    record has [is_active] true and [activation_date] the current time, its
    other columns are as they were, the records of other emails are as they
    were, and no row is added or removed. *)
Theorem activate_user_spec :
  (forall w db_path email t,
     tables w !! db_path = Some t ->
     record_of email t = None ->
     activate_user db_path email w = (Value (false, "User not found"), w))
  /\ (forall w db_path email t r,
        tables w !! db_path = Some t ->
        record_of email t = Some r ->
        exists t' r',
          activate_user db_path email w
          = (Value (true, "User activated"),
             set_tables (<[db_path := t']> (tables w)) w)
          /\ record_of email t' = Some r'
          /\ Users.is_active r' = true
          /\ Users.activation_date r' = Some (current_timestamp w)
          /\ Users.id r' = Users.id r
          /\ Users.email r' = Users.email r
          /\ Users.password r' = Users.password r
          /\ Users.registration_date r' = Users.registration_date r
          /\ (forall e, e <> email -> record_of e t' = record_of e t)
          /\ length t' = length t).
Proof.
  split.
  - intros w db_path email t Htab Hrec.
    rewrite (activate_user_eq _ _ _ Htab). fold (record_of email t).
    rewrite Hrec. reflexivity.
  - intros w db_path email t r Htab Hrec.
    rewrite (activate_user_eq _ _ _ Htab). fold (record_of email t).
    rewrite Hrec.
    exists (updated (set_activation (current_timestamp w)) email t).
    exists (set_activation (current_timestamp w) r).
    split; [reflexivity|]. split.
    { rewrite record_of_updated by reflexivity.
      rewrite String.eqb_refl, Hrec. reflexivity. }
    do 6 (split; [reflexivity|]). split.
    + intros e He. rewrite record_of_updated by reflexivity.
      apply String.eqb_neq in He. rewrite He. reflexivity.
    + unfold updated. apply length_map.
Qed.

Lemma activate_user_spec_witness :
  activate_user "tests.db" "nonexistent@example.com" registered_world
  = (Value (false, "User not found"), registered_world)
  /\ (fst (activate_user "tests.db" "resetuser@example.com" (set_clock 7%Z registered_world))
      = Value (true, "User activated")
      /\ exists t' r',
           tables (snd (activate_user "tests.db" "resetuser@example.com"
                          (set_clock 7%Z registered_world))) !! "tests.db" = Some t'
           /\ record_of "resetuser@example.com" t' = Some r'
           /\ Users.is_active r' = true
           /\ Users.activation_date r' = Some 7%Z
           /\ Users.password r' = hash_password "OldPassword123!").
Proof.
  destruct activate_user_spec as [H1 H2]. split.
  - apply (H1 registered_world "tests.db" "nonexistent@example.com"
              [Users.Row 1 "resetuser@example.com" (hash_password "OldPassword123!")
                 false (Some 0%Z) None]); vm_compute; reflexivity.
  - destruct (H2 (set_clock 7%Z registered_world) "tests.db" "resetuser@example.com"
                 [Users.Row 1 "resetuser@example.com" (hash_password "OldPassword123!")
                    false (Some 0%Z) None]
                 (Users.Row 1 "resetuser@example.com" (hash_password "OldPassword123!")
                    false (Some 0%Z) None))
      as (t' & r' & Heq & Hrec & Hact & Hdate & _ & _ & Hpw & _).
    + vm_compute. reflexivity.
    + vm_compute. reflexivity.
    + rewrite Heq. split; [reflexivity|].
      exists t', r'. split; [cbn [snd set_tables tables]; apply lookup_insert_eq|].
      repeat split; assumption.
Defined.

(** X7. The life of an account: for a valid email that is not registered
    and a valid password, after [register_user] the same credentials do not
    authenticate; [activate_user] then succeeds; after it the same
    credentials authenticate. *)
Theorem register_activate_authenticate
    (w : world) (db_path email password : string) (t : list Users.row) :
  tables w !! db_path = Some t ->
  is_valid_email email = true ->
  is_valid_password password = true ->
  record_of email t = None ->
  exists w1 w2,
    register_user db_path email password w
    = (Value (true, "Registration successful"), w1)
    /\ authenticate_user db_path email password w1
       = (Value (false, "Invalid credentials or account not activated"), w1)
    /\ activate_user db_path email w1 = (Value (true, "User activated"), w2)
    /\ fst (authenticate_user db_path email password w2)
       = Value (true, "Authentication successful").
Proof.
  intros Htab He Hp Hrec.
  rewrite (register_user_eq _ _ _ Htab), He, Hp. simpl.
  fold (record_of email t). rewrite Hrec.
  set (new := Users.Row (next_id t) email (hash_password password) false
                        (Some (current_timestamp w)) None).
  assert (Hnew : record_of email (t ++ [new]) = Some new).
  { rewrite record_of_app, Hrec. unfold record_of; simpl.
    unfold email_is; simpl. rewrite String.eqb_refl. reflexivity. }
  eexists. eexists. split; [reflexivity|].
  assert (Htab1 : tables (set_tables (<[db_path := t ++ [new]]> (tables w)) w) !! db_path
                  = Some (t ++ [new])).
  { simpl. apply lookup_insert_eq. }
  rewrite (authenticate_user_eq _ _ _ Htab1), (activate_user_eq _ _ _ Htab1).
  fold (record_of email (t ++ [new])). rewrite Hnew. simpl.
  rewrite andb_false_r.
  split; [reflexivity|]. split; [reflexivity|].
  erewrite authenticate_user_eq by (simpl; apply lookup_insert_eq).
  fold (record_of email
          (updated (set_activation (current_timestamp w)) email (t ++ [new]))).
  rewrite record_of_updated by reflexivity.
  rewrite String.eqb_refl, Hnew. simpl. rewrite String.eqb_refl. reflexivity.
Qed.

Lemma register_activate_authenticate_witness :
  exists w1 w2,
    register_user "tests.db" "authuser@example.com" "Password123!" created_world
    = (Value (true, "Registration successful"), w1)
    /\ authenticate_user "tests.db" "authuser@example.com" "Password123!" w1
       = (Value (false, "Invalid credentials or account not activated"), w1)
    /\ activate_user "tests.db" "authuser@example.com" w1
       = (Value (true, "User activated"), w2)
    /\ fst (authenticate_user "tests.db" "authuser@example.com" "Password123!" w2)
       = Value (true, "Authentication successful").
Proof.
  apply (register_activate_authenticate created_world "tests.db"
           "authuser@example.com" "Password123!" []); vm_compute; reflexivity.
Defined.

(** ** Exceptions and connections *)

Lemma run_returns c w t :
  tables w !! call_path c = Some t ->
  exists r w', run c w = (Value r, w').
Proof.
  intros Htab. destruct c; simpl in *.
  - rewrite (register_user_eq _ _ _ Htab).
    destruct (negb (is_valid_email email)); [eauto|].
    destruct (negb (is_valid_password password)); [eauto|].
    destruct (find (email_is email) t); eauto.
  - rewrite (activate_user_eq _ _ _ Htab).
    destruct (find (email_is email) t); eauto.
  - rewrite (authenticate_user_eq _ _ _ Htab).
    destruct (find (email_is email) t) as [x|]; [|eauto].
    destruct (String.eqb (hash_password password) (Users.password x)
              && Users.is_active x); eauto.
  - rewrite (reset_password_eq _ _ _ Htab).
    destruct (negb (is_valid_password new_password)); [eauto|].
    destruct (find (email_is email) t); eauto.
Qed.

(** X8. With the [users] table in place at its path, every call returns a
    result: none raises, and in particular the [INSERT] of [register_user]
    never meets the [UNIQUE] constraint, the email having been looked up
    first. *)
Theorem call_returns (c : call) (w : world) (t : list Users.row) :
  tables w !! call_path c = Some t ->
  exists r w', run c w = (Value r, w').
Proof. apply run_returns. Qed.

Lemma call_returns_witness :
  exists r w',
    run (RegisterUser "tests.db" "resetuser@example.com" "Password123!")
        registered_world = (Value r, w').
Proof.
  apply (call_returns (RegisterUser "tests.db" "resetuser@example.com" "Password123!")
           registered_world
           [Users.Row 1 "resetuser@example.com" (hash_password "OldPassword123!")
              false (Some 0%Z) None]).
  vm_compute. reflexivity.
Defined.

(** X9. Where [create_database] has not run, so that no [users] table is at
    the path: [activate_user] and [authenticate_user] raise
    OperationalError; so does [register_user] once email and password have
    passed their checks, and [reset_password] once the password has; the
    exception leaves the connection open, and nothing is stored. *)
Theorem no_table_raises (w : world) (db_path email password : string) :
  tables w !! db_path = None ->
  let leaked :=
    set_connections
      (<[fresh (dom (connections w)) := Conn db_path None]> (connections w)) w in
  activate_user db_path email w = (Raise no_such_table, leaked)
  /\ authenticate_user db_path email password w = (Raise no_such_table, leaked)
  /\ (is_valid_email email = true -> is_valid_password password = true ->
      register_user db_path email password w = (Raise no_such_table, leaked))
  /\ (is_valid_password password = true ->
      reset_password db_path email password w = (Raise no_such_table, leaked))
  /\ tables leaked = tables w.
Proof.
  intros Hnone leaked.
  repeat split.
  - unfold activate_user, bind, connect, select_fetchone, with_table, visible; simpl.
    rewrite lookup_insert_eq; simpl. rewrite Hnone. reflexivity.
  - unfold authenticate_user, bind, connect, select_fetchone, with_table, visible; simpl.
    rewrite lookup_insert_eq; simpl. rewrite Hnone. reflexivity.
  - intros He Hp. unfold register_user. rewrite He, Hp. simpl.
    unfold bind, connect, select_fetchone, with_table, visible; simpl.
    rewrite lookup_insert_eq; simpl. rewrite Hnone. reflexivity.
  - intros Hp. unfold reset_password. rewrite Hp. simpl.
    unfold bind, connect, select_fetchone, with_table, visible; simpl.
    rewrite lookup_insert_eq; simpl. rewrite Hnone. reflexivity.
Qed.

Lemma no_table_raises_witness :
  fst (authenticate_user "users.db" "jackiechan@gmail.com" "myveryweakpass&12"
         (empty_world 0%Z))
  = Raise no_such_table.
Proof.
  destruct (no_table_raises (empty_world 0%Z) "users.db" "jackiechan@gmail.com"
              "myveryweakpass&12") as (_ & H & _).
  - vm_compute. reflexivity.
  - rewrite H. reflexivity.
Defined.

Lemma authenticate_user_read_only_tables w db_path email password :
  tables (snd (authenticate_user db_path email password w)) = tables w.
Proof.
  destruct (tables w !! db_path) as [t|] eqn:Htab.
  - rewrite (authenticate_user_eq _ _ _ Htab).
    destruct (find (email_is email) t) as [x|]; [|reflexivity].
    destruct (String.eqb (hash_password password) (Users.password x)
              && Users.is_active x); reflexivity.
  - apply authenticate_user_no_table. exact Htab.
Qed.

(** X10. [authenticate_user] never writes: in every world, whatever it
    returns or raises, the tables after the call are the tables before. *)
Theorem authenticate_user_read_only (w : world) (db_path email password : string) :
  tables (snd (authenticate_user db_path email password w)) = tables w.
Proof.
  destruct (tables w !! db_path) as [t|] eqn:Htab.
  - rewrite (authenticate_user_eq _ _ _ Htab).
    destruct (find (email_is email) t) as [x|]; [|reflexivity].
    destruct (String.eqb (hash_password password) (Users.password x)
              && Users.is_active x); reflexivity.
  - apply authenticate_user_no_table. exact Htab.
Qed.

Lemma connection_closed_witness :
  connections
    (snd (run (ResetPassword "tests.db" "resetuser@example.com" "NewPassword123!")
              activated_world))
  = connections activated_world.
Proof.
  apply (connection_closed
           (ResetPassword "tests.db" "resetuser@example.com" "NewPassword123!")
           activated_world (true, "Password reset successfully")).
  - vm_compute. reflexivity.
  - intros db_path email password H. discriminate H.
Defined.

(** X12. [reset_password] does not activate: on the record of an account
    that is not active a reset with a valid password succeeds, and after it
    no password authenticates, the new one included. *)
Theorem reset_does_not_activate
    (w : world) (db_path email new_password password : string)
    (t : list Users.row) (r : Users.row) :
  tables w !! db_path = Some t ->
  record_of email t = Some r ->
  Users.is_active r = false ->
  is_valid_password new_password = true ->
  exists w1,
    reset_password db_path email new_password w
    = (Value (true, "Password reset successfully"), w1)
    /\ authenticate_user db_path email password w1
       = (Value (false, "Invalid credentials or account not activated"), w1).
Proof.
  intros Htab Hrec Hact Hp.
  rewrite (reset_password_eq _ _ _ Htab), Hp. simpl.
  fold (record_of email t). rewrite Hrec.
  eexists. split; [reflexivity|].
  erewrite authenticate_user_eq by (simpl; apply lookup_insert_eq).
  fold (record_of email (updated (set_password (hash_password new_password)) email t)).
  rewrite record_of_updated by reflexivity.
  rewrite String.eqb_refl, Hrec. simpl. rewrite Hact, andb_false_r. reflexivity.
Qed.

Lemma reset_does_not_activate_witness :
  exists w1,
    reset_password "tests.db" "resetuser@example.com" "NewPassword123!" registered_world
    = (Value (true, "Password reset successfully"), w1)
    /\ authenticate_user "tests.db" "resetuser@example.com" "NewPassword123!" w1
       = (Value (false, "Invalid credentials or account not activated"), w1).
Proof.
  apply (reset_does_not_activate registered_world "tests.db" "resetuser@example.com"
           "NewPassword123!" "NewPassword123!"
           [Users.Row 1 "resetuser@example.com" (hash_password "OldPassword123!")
              false (Some 0%Z) None]
           (Users.Row 1 "resetuser@example.com" (hash_password "OldPassword123!")
              false (Some 0%Z) None)); vm_compute; reflexivity.
Defined.

(** ** The hasher *)

Section Hex.

Local Open Scope Z_scope.

Lemma fold_compress_length blocks : forall h,
  length h = 8%nat -> length (fold_left Sha256.compress blocks h) = 8%nat.
Proof.
  induction blocks as [|b blocks IH]; simpl; intros h Hh; [exact Hh|].
  apply IH. reflexivity.
Qed.

Lemma be_bytes_length n x : length (Sha256.be_bytes n x) = n.
Proof. induction n as [|n IH]; simpl; congruence. Qed.

Lemma be_bytes_range n x : Forall (fun b => 0 <= b < 256) (Sha256.be_bytes n x).
Proof.
  induction n as [|n IH]; simpl; constructor; [|exact IH].
  change 0xff with (Z.ones 8). rewrite Z.land_ones by lia.
  apply Z.mod_pos_bound. lia.
Qed.

Lemma digest_length msg : length (Sha256.digest msg) = 32%nat.
Proof.
  unfold Sha256.digest.
  assert (H : length (fold_left Sha256.compress
                        (Sha256.chunks (length (Sha256.pad msg) / 64) 64 (Sha256.pad msg))
                        Sha256.H0) = 8%nat)
    by (apply fold_compress_length; reflexivity).
  revert H. generalize (fold_left Sha256.compress
                          (Sha256.chunks (length (Sha256.pad msg) / 64) 64 (Sha256.pad msg))
                          Sha256.H0).
  intros l Hl. do 9 (destruct l as [|? l]; try discriminate). reflexivity.
Qed.

Lemma digest_range msg : Forall (fun b => 0 <= b < 256) (Sha256.digest msg).
Proof.
  unfold Sha256.digest. apply List.Forall_forall. intros b Hin.
  apply in_flat_map in Hin as (x & _ & Hb).
  pose proof (be_bytes_range 4 x) as Hr.
  rewrite List.Forall_forall in Hr. auto.
Qed.

Lemma hex_digit_hex x : 0 <= x < 16 -> In (Sha256.hex_digit x) hex_digits.
Proof.
  intros Hx.
  assert (H : x = 0 \/ x = 1 \/ x = 2 \/ x = 3 \/ x = 4 \/ x = 5 \/ x = 6 \/ x = 7
              \/ x = 8 \/ x = 9 \/ x = 10 \/ x = 11 \/ x = 12 \/ x = 13 \/ x = 14
              \/ x = 15) by lia.
  repeat (destruct H as [-> | H]; [vm_compute; tauto|]).
  subst x. vm_compute. tauto.
Qed.

Lemma length_string_of_list (l : list ascii) :
  String.length (string_of_list_ascii l) = length l.
Proof. induction l as [|c l IH]; simpl; congruence. Qed.

Lemma hexdigest_hex msg :
  String.length (Sha256.hexdigest msg) = 64%nat
  /\ Forall (fun c => In c hex_digits) (chars (Sha256.hexdigest msg)).
Proof.
  unfold Sha256.hexdigest, chars.
  rewrite length_string_of_list, list_ascii_of_string_of_list_ascii.
  pose proof (digest_length msg) as Hlen. pose proof (digest_range msg) as Hrange.
  revert Hlen Hrange. generalize (Sha256.digest msg). intros l Hlen Hrange. split.
  - assert (H : forall k : list Z,
              length (flat_map (fun b => [Sha256.hex_digit (Z.shiftr b 4);
                                          Sha256.hex_digit (Z.land b 0xf)]) k)
              = (2 * length k)%nat).
    { induction k as [|b k IH]; simpl; [reflexivity|]. rewrite IH. lia. }
    rewrite H, Hlen. reflexivity.
  - apply List.Forall_forall. intros c Hin.
    apply in_flat_map in Hin as (b & Hb & Hc).
    rewrite List.Forall_forall in Hrange. specialize (Hrange b Hb).
    destruct Hc as [<- | [<- | []]]; apply hex_digit_hex.
    + rewrite Z.shiftr_div_pow2 by lia. change (2 ^ 4) with 16.
      split; [apply Z.div_pos; lia | apply Z.div_lt_upper_bound; lia].
    + change 0xf with (Z.ones 4). rewrite Z.land_ones by lia.
      apply Z.mod_pos_bound. lia.
Qed.

Lemma special_not_hex c :
  existsb (Ascii.eqb c) special_set && existsb (Ascii.eqb c) hex_digits = false.
Proof. all_chars c. Qed.

End Hex.

(** X13. For every password, [hash_password] is a string of exactly 64
    characters, each a lowercase hexadecimal digit. *)
Theorem hash_password_hex (password : string) :
  String.length (hash_password password) = 64%nat
  /\ Forall (fun c => In c hex_digits) (chars (hash_password password)).
Proof. unfold hash_password. apply hexdigest_hex. Qed.

(** A string of hexadecimal digits is not a valid password. *)
Lemma hex_not_valid (s : string) :
  Forall (fun c => In c hex_digits) (chars s) -> is_valid_password s = false.
Proof.
  intros Hhex. destruct (is_valid_password s) eqn:Hv; [|reflexivity].
  apply is_valid_password_iff in Hv as [_ (c & Hc & Hs)].
  rewrite List.Forall_forall in Hhex. specialize (Hhex c Hc).
  apply existsb_eqb_In in Hs, Hhex.
  pose proof (special_not_hex c) as H. rewrite Hs, Hhex in H. discriminate.
Qed.

(** A valid password differs from its hash. *)
Lemma hash_differs (password : string) :
  is_valid_password password = true -> hash_password password <> password.
Proof.
  intros Hp Heq.
  assert (Hhash : is_valid_password (hash_password password) = false).
  { apply hex_not_valid. apply hexdigest_hex. }
  rewrite Heq in Hhash. congruence.
Qed.

(** X14. The [password] column never holds the password itself: when
    [register_user] succeeds, the record stored for the email has as
    [password] the hash of the password given, which differs from that
    password; and the same for [reset_password] and the new password. *)
Theorem stored_password_is_hash :
  (forall w db_path email password t msg w1,
     tables w !! db_path = Some t ->
     register_user db_path email password w = (Value (true, msg), w1) ->
     exists t1 r,
       tables w1 !! db_path = Some t1
       /\ record_of email t1 = Some r
       /\ Users.password r = hash_password password
       /\ Users.password r <> password)
  /\ (forall w db_path email new_password t msg w1,
        tables w !! db_path = Some t ->
        reset_password db_path email new_password w = (Value (true, msg), w1) ->
        exists t1 r,
          tables w1 !! db_path = Some t1
          /\ record_of email t1 = Some r
          /\ Users.password r = hash_password new_password
          /\ Users.password r <> new_password).
Proof.
  split.
  - intros w db_path email password t msg w1 Htab H.
    rewrite (register_user_eq _ _ _ Htab) in H.
    destruct (is_valid_email email); simpl in H; [|discriminate].
    destruct (is_valid_password password) eqn:Hp; simpl in H; [|discriminate].
    fold (record_of email t) in H.
    destruct (record_of email t) eqn:Hrec; [discriminate|].
    injection H as _ <-.
    eexists. eexists. split; [simpl; apply lookup_insert_eq|]. split.
    { rewrite record_of_app, Hrec. unfold record_of; simpl.
      unfold email_is; simpl. rewrite String.eqb_refl. reflexivity. }
    simpl. split; [reflexivity|]. apply hash_differs. exact Hp.
  - intros w db_path email new_password t msg w1 Htab H.
    rewrite (reset_password_eq _ _ _ Htab) in H.
    destruct (is_valid_password new_password) eqn:Hp; simpl in H; [|discriminate].
    fold (record_of email t) in H.
    destruct (record_of email t) as [r|] eqn:Hrec; [|discriminate].
    injection H as _ <-.
    eexists. eexists. split; [simpl; apply lookup_insert_eq|]. split.
    { rewrite record_of_updated by reflexivity.
      rewrite String.eqb_refl, Hrec. reflexivity. }
    simpl. split; [reflexivity|]. apply hash_differs. exact Hp.
Qed.

Lemma stored_password_is_hash_witness :
  (exists t1 r,
     tables registered_world !! "tests.db" = Some t1
     /\ record_of "resetuser@example.com" t1 = Some r
     /\ Users.password r = hash_password "OldPassword123!"
     /\ Users.password r <> "OldPassword123!")
  /\ (exists t1 r,
        tables (snd (reset_password "tests.db" "resetuser@example.com"
                       "NewPassword123!" activated_world)) !! "tests.db" = Some t1
        /\ record_of "resetuser@example.com" t1 = Some r
        /\ Users.password r = hash_password "NewPassword123!"
        /\ Users.password r <> "NewPassword123!").
Proof.
  destruct stored_password_is_hash as [H1 H2]. split.
  - apply (H1 created_world "tests.db" "resetuser@example.com" "OldPassword123!"
              [] "Registration successful" registered_world);
      vm_compute; reflexivity.
  - apply (H2 activated_world "tests.db" "resetuser@example.com" "NewPassword123!"
              [Users.Row 1 "resetuser@example.com" (hash_password "OldPassword123!")
                 true (Some 0%Z) (Some 0%Z)]
              "Password reset successfully");
      vm_compute; reflexivity.
Defined.

(** A property of rows that holds of the row [register_user] inserts and
    is kept by the two updates holds of every row after a call. *)
Lemma run_rows (P : Users.row -> Prop) :
  (forall i e p now, P (Users.Row i e (hash_password p) false now None)) ->
  (forall now r, P r -> P (set_activation now r)) ->
  (forall p r, P r -> P (set_password (hash_password p) r)) ->
  forall c w,
    (forall path t r, tables w !! path = Some t -> In r t -> P r) ->
    forall path t r, tables (snd (run c w)) !! path = Some t -> In r t -> P r.
Proof.
  intros Hins Hact Hpw c w Hw path t r Hpath Hin.
  assert (Hstore : forall p0 t0 t',
            tables w !! p0 = Some t0 ->
            (forall x, In x t' -> P x) ->
            tables (snd (run c w)) = <[p0 := t']> (tables w) -> P r).
  { intros p0 t0 t' Ht0 Ht' Heq. rewrite Heq in Hpath.
    destruct (decide (p0 = path)) as [-> | Hne].
    - rewrite lookup_insert_eq in Hpath. injection Hpath as <-. auto.
    - rewrite lookup_insert_ne in Hpath by exact Hne. eauto. }
  assert (Hsame : tables (snd (run c w)) = tables w -> P r).
  { intros Heq. rewrite Heq in Hpath. eauto. }
  destruct c; simpl in *; destruct (tables w !! db_path) as [t0|] eqn:Htab.
  - rewrite (register_user_eq _ _ _ Htab) in *.
    destruct (negb (is_valid_email email)); [auto|].
    destruct (negb (is_valid_password password)); [auto|].
    destruct (find (email_is email) t0); [auto|].
    eapply Hstore; [exact Htab| |reflexivity].
    intros x Hx. apply in_app_or in Hx as [Hx | [<- | []]]; eauto.
  - apply Hsame. apply register_user_no_table; auto.
  - rewrite (activate_user_eq _ _ _ Htab) in *.
    destruct (find (email_is email) t0); [|auto].
    eapply Hstore; [exact Htab| |reflexivity].
    intros x Hx. unfold updated in Hx. apply in_map_iff in Hx as (y & <- & Hy).
    destruct (email_is email y); eauto.
  - apply Hsame. apply activate_user_no_table; auto.
  - apply Hsame. apply authenticate_user_read_only_tables.
  - apply Hsame. apply authenticate_user_read_only_tables.
  - rewrite (reset_password_eq _ _ _ Htab) in *.
    destruct (negb (is_valid_password new_password)); [auto|].
    destruct (find (email_is email) t0); [|auto].
    eapply Hstore; [exact Htab| |reflexivity].
    intros x Hx. unfold updated in Hx. apply in_map_iff in Hx as (y & <- & Hy).
    destruct (email_is email y); eauto.
  - apply Hsame. apply reset_password_no_table; auto.
Qed.

(** X18. In every world reachable from empty tables the [password] of every
    record is a string of exactly 64 lowercase hexadecimal digits, a hash
    and never a password the service would accept. *)
Theorem stored_password_hex
    (w0 w : world) (db_path : string) (t : list Users.row) (r : Users.row) :
  empty_tables w0 ->
  reachable w0 w ->
  tables w !! db_path = Some t ->
  In r t ->
  String.length (Users.password r) = 64%nat
  /\ Forall (fun c => In c hex_digits) (chars (Users.password r))
  /\ is_valid_password (Users.password r) = false.
Proof.
  intros Hempty Hreach Htab Hin.
  assert (H : String.length (Users.password r) = 64%nat
              /\ Forall (fun c => In c hex_digits) (chars (Users.password r))).
  { revert db_path t r Htab Hin.
    induction Hreach as [|w1 w2 Hreach IH Hstep]; intros path t r Htab Hin.
    - apply Hempty in Htab. subst t. destruct Hin.
    - destruct Hstep as [c w3 | now w3]; [|simpl in Htab; eauto].
      revert path t r Htab Hin.
      apply (run_rows
               (fun r => String.length (Users.password r) = 64%nat
                         /\ Forall (fun c => In c hex_digits) (chars (Users.password r)))).
      + intros i e p now. simpl. apply hexdigest_hex.
      + intros now x Hx. exact Hx.
      + intros p x _. simpl. apply hexdigest_hex.
      + exact IH. }
  destruct H as [Hlen Hhex]. repeat split; auto. apply hex_not_valid. exact Hhex.
Qed.

Lemma stored_password_hex_witness :
  String.length (hash_password "OldPassword123!") = 64%nat
  /\ Forall (fun c => In c hex_digits) (chars (hash_password "OldPassword123!"))
  /\ is_valid_password (hash_password "OldPassword123!") = false.
Proof.
  apply (stored_password_hex created_world activated_world "tests.db"
           [Users.Row 1 "resetuser@example.com" (hash_password "OldPassword123!")
              true (Some 0%Z) (Some 0%Z)]
           (Users.Row 1 "resetuser@example.com" (hash_password "OldPassword123!")
              true (Some 0%Z) (Some 0%Z))).
  - exact created_world_empty.
  - apply (reachable_step _ registered_world).
    + apply (reachable_step _ created_world).
      * apply reachable_start.
      * apply (step_call (RegisterUser "tests.db" "resetuser@example.com" "OldPassword123!")).
    + apply (step_call (ActivateUser "tests.db" "resetuser@example.com")).
  - vm_compute. reflexivity.
  - left. reflexivity.
Defined.

(** ** More on the validators *)

Lemma length_chars s : length (chars s) = String.length s.
Proof. unfold chars. induction s as [|c s IH]; simpl; congruence. Qed.

(** X15. Adding characters never invalidates a password: a valid password
    with any text before and after it is valid; there is no maximum length
    and no forbidden character. *)
Theorem is_valid_password_extend (before password after : string) :
  is_valid_password password = true ->
  is_valid_password (String.append before (String.append password after)) = true.
Proof.
  intros Hp. apply is_valid_password_iff in Hp as [(d & Hd & Hd') (c & Hc & Hc')].
  apply is_valid_password_iff. rewrite !chars_append. split.
  - exists d. split; auto. apply in_or_app. right. apply in_or_app. left. exact Hd.
  - exists c. split; auto. apply in_or_app. right. apply in_or_app. left. exact Hc.
Qed.

Lemma is_valid_password_extend_witness :
  is_valid_password (String.append "my " (String.append "validpass%1" " and more")) = true.
Proof.
  apply (is_valid_password_extend "my " "validpass%1" " and more").
  vm_compute. reflexivity.
Defined.

(** X16. The email pattern is anchored at the start: a valid email begins
    with a character of [a-zA-Z0-9._%+-], has at least six characters, and
    contains [@] and a dot. *)
Theorem is_valid_email_necessary (email : string) :
  is_valid_email email = true ->
  (exists c rest, chars email = c :: rest /\ In c local_set)
  /\ (6 <= String.length email)%nat
  /\ In "@"%char (chars email)
  /\ In "."%char (chars email).
Proof.
  intros He. apply is_valid_email_iff in He as (p & q & Heq & Hp).
  destruct Hp as (loc & dom & tld & -> & Hl1 & Hl2 & Hd1 & Hd2 & Ht1 & Ht2).
  rewrite <- length_chars, Heq. repeat split.
  - destruct loc as [|c loc]; [congruence|].
    exists c. eexists. split; [reflexivity|].
    apply List.Forall_inv in Hl2. exact Hl2.
  - destruct loc as [|c loc]; [congruence|]. destruct dom as [|d dom]; [congruence|].
    rewrite !length_app. simpl. rewrite !length_app. simpl. lia.
  - apply in_or_app. left. apply in_or_app. right. left. reflexivity.
  - apply in_or_app. left. apply in_or_app. right. right.
    apply in_or_app. right. left. reflexivity.
Qed.

Lemma is_valid_email_necessary_witness :
  (exists c rest, chars "info@correct.com" = c :: rest /\ In c local_set)
  /\ (6 <= String.length "info@correct.com")%nat
  /\ In "@"%char (chars "info@correct.com")
  /\ In "."%char (chars "info@correct.com").
Proof.
  apply (is_valid_email_necessary "info@correct.com"). vm_compute. reflexivity.
Defined.
